(** * Contract calculator: the calculation engine

    A shallow embedding of the calculation engine of the contract
    calculator (validator.js, config.js, profitCalculator.js,
    liquidationCalculator.js, positionCalculator.js and
    averagePriceCalculator.js) and the properties its specification
    states about it.

    Numbers.  A JavaScript number is modelled by [number]: an exact
    rational, or one of the three special values NaN, +Infinity and
    -Infinity.  Arithmetic on finite values is exact (no rounding, no
    overflow, one unsigned zero) and a decimal numeral is read as the
    rational it denotes, where the program rounds to the nearest double;
    arithmetic on the special values follows IEEE 754.  The only division of the engine whose divisor can be zero
    is [positionValue / leverage] in the liquidation formulas, where the
    divisor is [parseFloat(leverage) || 0], that is a positive zero.

    Effects.  The module-level variables, the console and the clock are
    threaded through a state and exception monad.  A configuration
    listener is a function object, identified by a natural number; what it
    does when called is given by an environment, so that a listener may do
    anything to the state, and [Date.now()] reads its successive values
    from an environment as well.  The code that draws the page is not
    part of the model. *)

From Stdlib Require Import ZArith QArith Qabs Lqa Lia List Bool.
From Stdlib Require Import Ascii String.
Import ListNotations.

Set Implicit Arguments.

(** ** JavaScript numbers *)

Module Num.

Inductive number : Type :=
| Fin (q : Q)
| NaN
| PInf
| NInf.

Definition Qltb (a b : Q) : bool := negb (Qle_bool b a).

Definition isNaN (x : number) : bool :=
  match x with NaN => true | _ => false end.

Definition isFinite (x : number) : bool :=
  match x with Fin _ => true | _ => false end.

Definition neg (x : number) : number :=
  match x with
  | Fin a => Fin (- a)
  | NaN => NaN
  | PInf => NInf
  | NInf => PInf
  end.

Definition add (x y : number) : number :=
  match x, y with
  | NaN, _ | _, NaN => NaN
  | Fin a, Fin b => Fin (a + b)
  | PInf, NInf | NInf, PInf => NaN
  | PInf, _ | _, PInf => PInf
  | NInf, _ | _, NInf => NInf
  end.

Definition sub (x y : number) : number :=
  match x, y with
  | NaN, _ | _, NaN => NaN
  | Fin a, Fin b => Fin (a - b)
  | PInf, PInf | NInf, NInf => NaN
  | PInf, _ | _, NInf => PInf
  | NInf, _ | _, PInf => NInf
  end.

(** The sign of a finite value decides the product with an infinity;
    [0 * Infinity] is NaN. *)
Definition scaleInf (a : Q) (positive : bool) : number :=
  if Qeq_bool a 0 then NaN
  else if Bool.eqb (Qltb 0 a) positive then PInf else NInf.

Definition mul (x y : number) : number :=
  match x, y with
  | NaN, _ | _, NaN => NaN
  | Fin a, Fin b => Fin (a * b)
  | Fin a, PInf | PInf, Fin a => scaleInf a true
  | Fin a, NInf | NInf, Fin a => scaleInf a false
  | PInf, PInf | NInf, NInf => PInf
  | PInf, NInf | NInf, PInf => NInf
  end.

Definition div (x y : number) : number :=
  match x, y with
  | NaN, _ | _, NaN => NaN
  | Fin a, Fin b =>
      if Qeq_bool b 0 then
        if Qeq_bool a 0 then NaN else if Qltb 0 a then PInf else NInf
      else Fin (a / b)
  | Fin _, (PInf | NInf) => Fin 0
  | (PInf | NInf), (PInf | NInf) => NaN
  | PInf, Fin b => if Qltb b 0 then NInf else PInf
  | NInf, Fin b => if Qltb b 0 then PInf else NInf
  end.

Definition abs (x : number) : number :=
  match x with
  | Fin a => Fin (Qabs a)
  | NaN => NaN
  | PInf | NInf => PInf
  end.

(** The relational operators; every comparison with NaN is false. *)
Definition lt (x y : number) : bool :=
  match x, y with
  | NaN, _ | _, NaN => false
  | Fin a, Fin b => Qltb a b
  | NInf, (Fin _ | PInf) => true
  | Fin _, PInf => true
  | _, _ => false
  end.

Definition le (x y : number) : bool :=
  match x, y with
  | NaN, _ | _, NaN => false
  | Fin a, Fin b => Qle_bool a b
  | NInf, _ => true
  | _, PInf => true
  | _, _ => false
  end.

Definition gt (x y : number) : bool := lt y x.
Definition ge (x y : number) : bool := le y x.

(** ToBoolean on a number: zero and NaN are falsy. *)
Definition truthy (x : number) : bool :=
  match x with
  | Fin a => negb (Qeq_bool a 0)
  | NaN => false
  | PInf | NInf => true
  end.

(** [x || d] on numbers. *)
Definition orElse (x d : number) : number := if truthy x then x else d.

(** Numeric equality: the same special value, or equal rationals. *)
Definition equiv (x y : number) : Prop :=
  match x, y with
  | Fin a, Fin b => a == b
  | NaN, NaN | PInf, PInf | NInf, NInf => True
  | _, _ => False
  end.

Definition ofZ (z : Z) : number := Fin (inject_Z z).

End Num.

Export Num.

Declare Scope num_scope.
Delimit Scope num_scope with num.
Bind Scope num_scope with number.
Infix "+" := Num.add : num_scope.
Infix "-" := Num.sub : num_scope.
Infix "*" := Num.mul : num_scope.
Infix "/" := Num.div : num_scope.
Infix "<?" := Num.lt : num_scope.
Infix "<=?" := Num.le : num_scope.
Infix ">?" := Num.gt (at level 70) : num_scope.
Infix ">=?" := Num.ge (at level 70) : num_scope.
Infix "≡" := Num.equiv (at level 70) : num_scope.

(** ** JavaScript values and their numeric conversions

    The engine receives [string | number | null | undefined].  Strings are
    byte strings (UTF-8); [parseFloat] and [Number] follow ECMAScript:
    [parseFloat] reads the longest prefix that is a signed decimal literal,
    [Number] requires the whole trimmed string to be a numeric literal
    (decimal, or an unsigned 0x/0o/0b integer) and maps the blank string
    to 0. *)

Module Js.

Inductive value : Type :=
| VUndefined
| VNull
| VNum (n : number)
| VStr (s : string).

Local Open Scope char_scope.

Definition code (c : ascii) : N := N_of_ascii c.

Definition isDigit (c : ascii) : bool := ((48 <=? code c) && (code c <=? 57))%N.

Definition digitValue (c : ascii) : Z := (Z.of_N (code c) - 48)%Z.

(** WhiteSpace and LineTerminator code points, by the length of their
    UTF-8 encoding. *)
Definition ws1 (a : ascii) : bool :=
  ((9 <=? code a) && (code a <=? 13) || (code a =? 32))%N.

Definition ws2 (a b : ascii) : bool :=
  ((code a =? 194) && (code b =? 160))%N.

Definition ws3 (a b c : ascii) : bool :=
  (((code a =? 225) && (code b =? 154) && (code c =? 128))
   || ((code a =? 226) && (code b =? 128)
       && ((128 <=? code c) && (code c <=? 138)
           || (code c =? 168) || (code c =? 169) || (code c =? 175)))
   || ((code a =? 226) && (code b =? 129) && (code c =? 159))
   || ((code a =? 227) && (code b =? 128) && (code c =? 128))
   || ((code a =? 239) && (code b =? 187) && (code c =? 191)))%N.

Fixpoint trimStart (cs : list ascii) : list ascii :=
  match cs with
  | [] => []
  | a :: r1 =>
      if ws1 a then trimStart r1
      else match r1 with
           | [] => cs
           | b :: r2 =>
               if ws2 a b then trimStart r2
               else match r2 with
                    | [] => cs
                    | c :: r3 => if ws3 a b c then trimStart r3 else cs
                    end
           end
  end.

Definition allWhiteSpace (cs : list ascii) : bool :=
  match trimStart cs with [] => true | _ => false end.

(** [scanDigits cs acc n]: reads decimal digits; returns their value on
    top of [acc], how many were read on top of [n], and the rest. *)
Fixpoint scanDigits (cs : list ascii) (acc : Z) (n : nat) : Z * nat * list ascii :=
  match cs with
  | c :: r => if isDigit c then scanDigits r (10 * acc + digitValue c)%Z (S n)
              else (acc, n, cs)
  | [] => (acc, n, cs)
  end.

(** ExponentPart, when present and well formed; otherwise the literal
    ends before it. *)
Definition scanExponent (cs : list ascii) : Z * list ascii :=
  match cs with
  | ("e" | "E") :: r =>
      let '(negative, r') :=
        match r with
        | "+" :: r' => (false, r')
        | "-" :: r' => (true, r')
        | _ => (false, r)
        end in
      let '(e, n, rest) := scanDigits r' 0%Z 0%nat in
      match n with
      | O => (0%Z, cs)
      | S _ => (if negative then (- e)%Z else e, rest)
      end
  | _ => (0%Z, cs)
  end.

Definition decimalValue (int frac : Z) (fracDigits : nat) (e : Z) : number :=
  Fin ((inject_Z int + inject_Z frac / inject_Z (10 ^ Z.of_nat fracDigits))
       * (10 # 1) ^ e).

Fixpoint stripPrefix (p cs : list ascii) : option (list ascii) :=
  match p, cs with
  | [], _ => Some cs
  | a :: p', c :: r => if Ascii.eqb a c then stripPrefix p' r else None
  | _ :: _, [] => None
  end.

(** StrUnsignedDecimalLiteral: the longest prefix and the rest. *)
Definition scanUnsigned (cs : list ascii) : option (number * list ascii) :=
  match stripPrefix (list_ascii_of_string "Infinity") cs with
  | Some rest => Some (PInf, rest)
  | None =>
      let '(int, ni, r1) := scanDigits cs 0%Z 0%nat in
      match r1 with
      | "." :: r2 =>
          let '(frac, nf, r3) := scanDigits r2 0%Z 0%nat in
          match ni, nf with
          | O, O => None
          | _, _ =>
              let '(e, rest) := scanExponent r3 in
              Some (decimalValue int frac nf e, rest)
          end
      | _ =>
          match ni with
          | O => None
          | S _ =>
              let '(e, rest) := scanExponent r1 in
              Some (decimalValue int 0 0 e, rest)
          end
      end
  end.

(** StrDecimalLiteral: an optional sign and an unsigned literal. *)
Definition scanDecimal (cs : list ascii) : option (number * list ascii) :=
  match cs with
  | "+" :: r => scanUnsigned r
  | "-" :: r =>
      match scanUnsigned r with
      | Some (x, rest) => Some (Num.neg x, rest)
      | None => None
      end
  | _ => scanUnsigned cs
  end.

Definition radixDigit (radix : Z) (c : ascii) : option Z :=
  let n := Z.of_N (code c) in
  let v := if isDigit c then (n - 48)%Z
           else if ((97 <=? n) && (n <=? 102))%Z then (n - 87)%Z
           else if ((65 <=? n) && (n <=? 70))%Z then (n - 55)%Z
           else radix in
  if (v <? radix)%Z then Some v else None.

Fixpoint scanRadixDigits (radix : Z) (cs : list ascii) (acc : Z) (n : nat)
  : Z * nat * list ascii :=
  match cs with
  | c :: r =>
      match radixDigit radix c with
      | Some v => scanRadixDigits radix r (radix * acc + v)%Z (S n)
      | None => (acc, n, cs)
      end
  | [] => (acc, n, cs)
  end.

(** The radix announced by a NonDecimalIntegerLiteral prefix. *)
Definition radixOf (c : ascii) : option Z :=
  if Ascii.eqb c "x" || Ascii.eqb c "X" then Some 16%Z
  else if Ascii.eqb c "o" || Ascii.eqb c "O" then Some 8%Z
  else if Ascii.eqb c "b" || Ascii.eqb c "B" then Some 2%Z
  else None.

Definition radixPrefix (cs : list ascii) : option (Z * list ascii) :=
  match cs with
  | z :: c :: r =>
      if Ascii.eqb z "0" then
        match radixOf c with Some radix => Some (radix, r) | None => None end
      else None
  | _ => None
  end.

(** parseFloat on a string. *)
Definition parseFloatString (s : string) : number :=
  match scanDecimal (trimStart (list_ascii_of_string s)) with
  | Some (x, _) => x
  | None => NaN
  end.

(** Number(...) on a string (StringToNumber). *)
Definition stringToNumber (s : string) : number :=
  let t := trimStart (list_ascii_of_string s) in
  match t with
  | [] => Fin 0
  | _ =>
      match radixPrefix t with
      | Some (radix, r) =>
          let '(v, n, rest) := scanRadixDigits radix r 0%Z 0%nat in
          match n with
          | O => NaN
          | S _ => if allWhiteSpace rest then Num.ofZ v else NaN
          end
      | None =>
          match scanDecimal t with
          | Some (x, rest) => if allWhiteSpace rest then x else NaN
          | None => NaN
          end
      end
  end.

(** [parseFloat(v)]: the argument is first converted to a string; a
    number prints to a literal that reads back as itself, and neither
    "undefined", "null" nor "NaN" starts with a decimal literal. *)
Definition parseFloat (v : value) : number :=
  match v with
  | VUndefined | VNull => NaN
  | VNum n => n
  | VStr s => parseFloatString s
  end.

(** ToNumber, applied by [isFinite], by the arithmetic operators and by
    the comparison of a value with a number. *)
Definition toNumber (v : value) : number :=
  match v with
  | VUndefined => NaN
  | VNull => Fin 0
  | VNum n => n
  | VStr s => stringToNumber s
  end.

(** [v === '']. *)
Definition isEmptyString (v : value) : bool :=
  match v with VStr EmptyString => true | _ => false end.

(** [v === null]. *)
Definition isNull (v : value) : bool :=
  match v with VNull => true | _ => false end.

(** [v === undefined]. *)
Definition isUndefined (v : value) : bool :=
  match v with VUndefined => true | _ => false end.

(** A parameter declared [p = null]: [undefined] takes the default. *)
Definition defaultNull (v : value) : value :=
  match v with VUndefined => VNull | _ => v end.

End Js.

Export Js.

(** ** Objects read through [Object.entries]

    An object is given by its properties in the order in which they were
    created, one pair for each key.  [Object.entries] does not list them in
    that order: the keys that are array indices come first, in ascending
    numeric order, and the other keys follow in the order of creation. *)

Module Object.

(** The array index a key denotes: the key is the canonical numeral (no
    sign, no leading zero, digits only) of an integer from 0 to 2^32 - 2. *)
Definition arrayIndex (key : string) : option Z :=
  match list_ascii_of_string key with
  | [] => None
  | c :: rest =>
      if forallb isDigit (c :: rest)
         && (negb (Ascii.eqb c "0"%char) || match rest with [] => true | _ => false end)
      then
        let '(n, _, _) := scanDigits (c :: rest) 0%Z 0%nat in
        if (n <=? 4294967294)%Z then Some n else None
      else None
  end.

Definition isArrayIndex (key : string) : bool :=
  match arrayIndex key with Some _ => true | None => false end.

(** The properties whose key is an array index, each with its index, and
    the others, both in the order of creation. *)
Fixpoint indexed (fields : list (string * value)) : list (Z * (string * value)) :=
  match fields with
  | [] => []
  | f :: rest =>
      match arrayIndex (fst f) with
      | Some i => (i, f) :: indexed rest
      | None => indexed rest
      end
  end.

Definition named (fields : list (string * value)) : list (string * value) :=
  filter (fun f => negb (isArrayIndex (fst f))) fields.

(** Insertion into a list that ascends by index. *)
Fixpoint insertByIndex (e : Z * (string * value))
  (sorted : list (Z * (string * value))) : list (Z * (string * value)) :=
  match sorted with
  | [] => [e]
  | x :: rest =>
      if (fst e <=? fst x)%Z then e :: sorted else x :: insertByIndex e rest
  end.

Definition ascending (l : list (Z * (string * value)))
  : list (Z * (string * value)) :=
  fold_right insertByIndex [] l.

Definition entries (fields : list (string * value)) : list (string * value) :=
  (map snd (ascending (indexed fields)) ++ named fields)%list.

End Object.

(** ** validator.js *)

Module validator.

Definition isValidNumber (v : value) : bool :=
  negb (isEmptyString v) && negb (isNull v) && negb (isUndefined v)
  && negb (isNaN (parseFloat v)) && isFinite (toNumber v).

Definition isPositive (v : value) : bool :=
  isValidNumber v && (parseFloat v >? Fin 0)%num.

Definition isNonNegative (v : value) : bool :=
  isValidNumber v && (parseFloat v >=? Fin 0)%num.

Definition isEmpty (v : value) : bool :=
  isEmptyString v || isNull v || isUndefined v.

(** The bound [1e15]. *)
Definition extremeBound : number := Fin (1000000000000000 # 1).

Definition isExtremeValue (v : value) : bool :=
  if negb (isValidNumber v) then false
  else
    let num := parseFloat v in
    negb (isFinite num) || isNaN num || (Num.abs num >? extremeBound)%num.

Definition isInRange (v : value) (min max : number) : bool :=
  if negb (isValidNumber v) then false
  else
    let num := parseFloat v in
    (num >=? min)%num && (num <=? max)%num.

Record Validation : Type := { isValid : bool; message : string }.

(** The loop over [Object.entries(fields)]: [fields] is the list of entries
    that [Object.entries] makes of the object.  The objects the engine
    itself passes have no key that is an array index, so that their
    entries are in the order of the object literal. *)
Fixpoint validateRequiredFields (fields : list (string * value)) : Validation :=
  match fields with
  | [] => {| isValid := true; message := "" |}
  | (fieldName, v) :: rest =>
      if isEmpty v then
        {| isValid := false; message := "请输入" ++ fieldName |}
      else if negb (isValidNumber v) then
        {| isValid := false; message := fieldName ++ "必须是有效数字" |}
      else validateRequiredFields rest
  end.

Definition safeParseFloat (v : value) (defaultValue : number) : number :=
  if negb (isValidNumber v) then defaultValue
  else
    let parsed := parseFloat v in
    if isFinite parsed then parsed else defaultValue.

End validator.

(** ** Program state and effects

    The modules keep their state in module-level variables: [config] in
    config.js and [positions] in averagePriceCalculator.js.  A function of
    the engine may read and write them, read the clock, write to the
    console, and throw. *)

Inductive Direction : Type := LONG | SHORT.

(** A listener is a function object; [indexOf] compares by identity. *)
Definition Listener : Type := nat.

Record Config : Type := {
  direction : Direction;
  makerFeeRate : number;
  takerFeeRate : number;
  listeners : list Listener
}.

Module Fill.
Record FillRecord : Type := {
  id : Z;
  quantity : number;
  price : number;
  fee : number;
  actualCost : number;
  totalCost : number
}.
End Fill.
Abbreviation FillRecord := Fill.FillRecord.

Inductive LogEntry : Type :=
| ConsoleError (label : string)
| ConsoleWarn (label : string).

(** What the code can observe and change.  [dateCalls] counts the calls of
    [Date.now()] made so far. *)
Record World : Type := {
  config : Config;
  positions : list FillRecord;
  dateCalls : nat;
  console : list LogEntry
}.

(** The snapshot built by [getAllConfig]. *)
Record Snapshot : Type := {
  snapDirection : Direction;
  snapMakerFeeRate : number;
  snapTakerFeeRate : number;
  snapTotalFeeRate : number
}.

(** The second argument of a listener call. *)
Inductive ConfigValue : Type :=
| OfDirection (d : Direction)
| OfRate (r : number)
| OfSnapshot (c : Snapshot).

(** One call of a listener: which one, and with which pair. *)
Definition Invocation : Type := (Listener * (string * ConfigValue))%type.

(** The world together with the record of the listener calls made so far;
    the record is only ever extended, by [invoke]. *)
Record State : Type := {
  world : World;
  calls : list Invocation
}.

Inductive Outcome (A : Type) : Type :=
| Return (a : A)
| Throw (message : string).
Arguments Return {A} a.
Arguments Throw {A} message.

Definition Eff (S A : Type) : Type := S -> Outcome A * S.

Definition ret {S A : Type} (a : A) : Eff S A := fun s => (Return a, s).

Definition throw {S A : Type} (message : string) : Eff S A :=
  fun s => (Throw message, s).

Definition bind {S A B : Type} (m : Eff S A) (k : A -> Eff S B) : Eff S B :=
  fun s =>
    match m s with
    | (Return a, s') => k a s'
    | (Throw e, s') => (Throw e, s')
    end.

(** [try { m } catch (error) { handler(error) }]. *)
Definition tryCatch {S A : Type} (m : Eff S A) (handler : string -> Eff S A)
  : Eff S A :=
  fun s =>
    match m s with
    | (Return a, s') => (Return a, s')
    | (Throw e, s') => handler e s'
    end.

Definition gets {S A : Type} (f : S -> A) : Eff S A := fun s => (Return (f s), s).

Definition modify {S : Type} (f : S -> S) : Eff S unit := fun s => (Return tt, f s).

Declare Scope eff_scope.
Delimit Scope eff_scope with eff.
Notation "x <- m ;; k" := (bind m (fun x => k))
  (at level 61, m at next level, right associativity) : eff_scope.
Notation "m ;; k" := (bind m (fun _ => k))
  (at level 61, right associativity) : eff_scope.
Open Scope eff_scope.

Definition W (A : Type) : Type := Eff World A.
Definition M (A : Type) : Type := Eff State A.

(** Code that makes no listener call runs on the world alone. *)
Definition lift {A : Type} (m : W A) : M A :=
  fun s =>
    let '(r, w) := m (world s) in (r, {| world := w; calls := calls s |}).

Definition setConfig (c : Config) (w : World) : World :=
  {| config := c; positions := positions w;
     dateCalls := dateCalls w; console := console w |}.

Definition setPositions (ps : list FillRecord) (w : World) : World :=
  {| config := config w; positions := ps;
     dateCalls := dateCalls w; console := console w |}.

Definition logEntry (e : LogEntry) (w : World) : World :=
  {| config := config w; positions := positions w;
     dateCalls := dateCalls w; console := console w ++ [e] |}.

Definition consoleError (label : string) : W unit :=
  modify (logEntry (ConsoleError label)).

Definition consoleWarn (label : string) : W unit :=
  modify (logEntry (ConsoleWarn label)).

(** [array.forEach(f)] over an array that [f] does not change. *)
Fixpoint forEach {S A : Type} (f : A -> Eff S unit) (l : list A) : Eff S unit :=
  match l with
  | [] => ret tt
  | x :: rest => f x ;; forEach f rest
  end.

(** ** config.js *)

Module config.

Definition defaultConfig : Config :=
  {| direction := LONG;
     makerFeeRate := Fin (2 # 10000);
     takerFeeRate := Fin (5 # 10000);
     listeners := [] |}.

(** The strings of the [Direction] enumeration. *)
Definition directionString (d : Direction) : string :=
  match d with LONG => "long" | SHORT => "short" end.

(** [v === Direction.X]. *)
Definition isDirection (v : value) (d : Direction) : bool :=
  match v with
  | VStr s => String.eqb s (directionString d)
  | _ => false
  end.

Definition withDirection (d : Direction) (c : Config) : Config :=
  {| direction := d; makerFeeRate := makerFeeRate c;
     takerFeeRate := takerFeeRate c; listeners := listeners c |}.

Definition withMakerFeeRate (r : number) (c : Config) : Config :=
  {| direction := direction c; makerFeeRate := r;
     takerFeeRate := takerFeeRate c; listeners := listeners c |}.

Definition withTakerFeeRate (r : number) (c : Config) : Config :=
  {| direction := direction c; makerFeeRate := makerFeeRate c;
     takerFeeRate := r; listeners := listeners c |}.

Definition withListeners (ls : list Listener) (c : Config) : Config :=
  {| direction := direction c; makerFeeRate := makerFeeRate c;
     takerFeeRate := takerFeeRate c; listeners := ls |}.

Definition update (f : Config -> Config) : W unit :=
  modify (fun w => setConfig (f (config w)) w).

Definition getDirection : W Direction := gets (fun w => direction (config w)).

Definition isLong : W bool :=
  gets (fun w => match direction (config w) with LONG => true | SHORT => false end).

Definition isShort : W bool :=
  gets (fun w => match direction (config w) with SHORT => true | LONG => false end).

Definition getMakerFeeRate : W number := gets (fun w => makerFeeRate (config w)).

Definition getTakerFeeRate : W number := gets (fun w => takerFeeRate (config w)).

Definition getTotalFeeRate : W number :=
  gets (fun w => (makerFeeRate (config w) + takerFeeRate (config w))%num).

Definition isFeeRateTooHigh (rate : number) : bool := (rate >? Fin (1 # 100))%num.

Definition getAllConfig : W Snapshot :=
  total <- getTotalFeeRate ;;
  gets (fun w =>
          {| snapDirection := direction (config w);
             snapMakerFeeRate := makerFeeRate (config w);
             snapTakerFeeRate := takerFeeRate (config w);
             snapTotalFeeRate := total |}).

(** The argument of [addConfigListener]: a function or some other value. *)
Inductive Callback : Type :=
| Function (l : Listener)
| NotFunction (v : value).

Definition addConfigListener (listener : Callback) : W unit :=
  match listener with
  | Function l => update (fun c => withListeners (listeners c ++ [l]) c)
  | NotFunction _ => ret tt
  end.

(** [indexOf]: the first index holding the listener. *)
Fixpoint indexOf (l : Listener) (ls : list Listener) : option nat :=
  match ls with
  | [] => None
  | x :: rest =>
      if Nat.eqb x l then Some O
      else match indexOf l rest with Some i => Some (S i) | None => None end
  end.

(** [splice(index, 1)]. *)
Fixpoint splice1 (index : nat) (ls : list Listener) : list Listener :=
  match index, ls with
  | _, [] => []
  | O, _ :: rest => rest
  | S i, x :: rest => x :: splice1 i rest
  end.

Definition removeConfigListener (listener : Callback) : W unit :=
  match listener with
  | Function l =>
      ls <- gets (fun w => listeners (config w)) ;;
      match indexOf l ls with
      | Some index => update (withListeners (splice1 index ls))
      | None => ret tt
      end
  | NotFunction _ => ret tt
  end.

Section Listeners.

(** What the function behind a listener does when it is called. *)
Variable listenerBody : Listener -> string -> ConfigValue -> W unit.

(** [listener(key, value)]. *)
Definition invoke (l : Listener) (key : string) (v : ConfigValue) : M unit :=
  fun s =>
    lift (listenerBody l key v)
         {| world := world s; calls := calls s ++ [(l, (key, v))] |}.

(** [config.listeners.forEach(...)] visits the indices below the length
    the array had at the start and reads the array again at each index. *)
Fixpoint notifyFrom (remaining index : nat) (key : string) (v : ConfigValue)
  : M unit :=
  match remaining with
  | O => ret tt
  | S remaining' =>
      ls <- gets (fun s => listeners (config (world s))) ;;
      match nth_error ls index with
      | Some l =>
          tryCatch (invoke l key v)
                   (fun _ => lift (consoleError "Error in config listener:")) ;;
          notifyFrom remaining' (S index) key v
      | None => notifyFrom remaining' (S index) key v
      end
  end.

Definition notifyListeners (key : string) (v : ConfigValue) : M unit :=
  ls <- gets (fun s => listeners (config (world s))) ;;
  notifyFrom (List.length ls) 0 key v.

Definition setDirection (d : value) : M unit :=
  if negb (isDirection d LONG) && negb (isDirection d SHORT) then
    lift (consoleError "Invalid direction:")
  else
    let d' := if isDirection d LONG then LONG else SHORT in
    lift (update (withDirection d')) ;;
    notifyListeners "direction" (OfDirection d').

Definition setMakerFeeRate (rate : value) : M unit :=
  let rateValue := parseFloat rate in
  if isNaN rateValue || (rateValue <? Fin 0)%num then
    lift (consoleError "Invalid maker fee rate:")
  else
    lift (update (withMakerFeeRate (rateValue / Fin 100)%num)) ;;
    r <- lift getMakerFeeRate ;;
    notifyListeners "makerFeeRate" (OfRate r).

Definition setTakerFeeRate (rate : value) : M unit :=
  let rateValue := parseFloat rate in
  if isNaN rateValue || (rateValue <? Fin 0)%num then
    lift (consoleError "Invalid taker fee rate:")
  else
    lift (update (withTakerFeeRate (rateValue / Fin 100)%num)) ;;
    r <- lift getTakerFeeRate ;;
    notifyListeners "takerFeeRate" (OfRate r).

Definition resetConfig : M unit :=
  lift (update (withDirection LONG)) ;;
  lift (update (withMakerFeeRate (Fin (2 # 10000)))) ;;
  lift (update (withTakerFeeRate (Fin (5 # 10000)))) ;;
  snapshot <- lift getAllConfig ;;
  notifyListeners "reset" (OfSnapshot snapshot).

End Listeners.

End config.

(** ** profitCalculator.js *)

Module profitCalculator.

Import validator.
Local Open Scope string_scope.

Record ProfitResult : Type := {
  profit : number;
  profitRate : number;
  totalFee : number;
  openFee : number;
  closeFee : number
}.

(** The arithmetic operators convert their operands with ToNumber. *)
Definition calculateOpenFee (position openPrice : value) : W number :=
  makerRate <- config.getMakerFeeRate ;;
  ret (toNumber position * toNumber openPrice * makerRate)%num.

Definition calculateCloseFee (position closePrice : value) : W number :=
  takerRate <- config.getTakerFeeRate ;;
  ret (toNumber position * toNumber closePrice * takerRate)%num.

Definition calculateLongProfit (position openPrice currentPrice : value)
  : W ProfitResult :=
  let priceDiff := (toNumber currentPrice - toNumber openPrice)%num in
  let grossProfit := (toNumber position * priceDiff)%num in
  openFee <- calculateOpenFee position openPrice ;;
  closeFee <- calculateCloseFee position currentPrice ;;
  let totalFee := (openFee + closeFee)%num in
  let netProfit := (grossProfit - totalFee)%num in
  let cost := (toNumber position * toNumber openPrice)%num in
  let profitRate := if (cost >? Fin 0)%num then (netProfit / cost)%num else Fin 0 in
  ret {| profit := netProfit; profitRate := profitRate; totalFee := totalFee;
         openFee := openFee; closeFee := closeFee |}.

Definition calculateShortProfit (position openPrice currentPrice : value)
  : W ProfitResult :=
  let priceDiff := (toNumber openPrice - toNumber currentPrice)%num in
  let grossProfit := (toNumber position * priceDiff)%num in
  openFee <- calculateOpenFee position openPrice ;;
  closeFee <- calculateCloseFee position currentPrice ;;
  let totalFee := (openFee + closeFee)%num in
  let netProfit := (grossProfit - totalFee)%num in
  let cost := (toNumber position * toNumber openPrice)%num in
  let profitRate := if (cost >? Fin 0)%num then (netProfit / cost)%num else Fin 0 in
  ret {| profit := netProfit; profitRate := profitRate; totalFee := totalFee;
         openFee := openFee; closeFee := closeFee |}.

Definition calculateProfit (leverage openPrice closePrice quantity : value)
  : W ProfitResult :=
  let validation :=
    validateRequiredFields
      [("杠杆倍数", leverage); ("开仓价格", openPrice);
       ("平仓价格", closePrice); ("开仓数量", quantity)] in
  if negb (isValid validation) then throw (message validation)
  else if negb (isPositive leverage) then throw "杠杆倍数必须大于0"
  else if negb (isPositive openPrice) then throw "开仓价格必须大于0"
  else if negb (isPositive closePrice) then throw "平仓价格必须大于0"
  else if negb (isPositive quantity) then throw "开仓数量必须大于0"
  else if isExtremeValue leverage || isExtremeValue openPrice
          || isExtremeValue closePrice || isExtremeValue quantity
  then throw "输入值超出合理范围"
  else
    long <- config.isLong ;;
    if long then calculateLongProfit quantity openPrice closePrice
    else calculateShortProfit quantity openPrice closePrice.

End profitCalculator.

(** ** liquidationCalculator.js *)

Module liquidationCalculator.

Import validator.
Local Open Scope string_scope.

(** The value the two price functions return. *)
Record Margins : Type := {
  price : number;
  initial : number;
  total : number
}.

Record LiquidationResult : Type := {
  liquidationPrice : number;
  initialMargin : number;
  totalMargin : number;
  isWarning : bool
}.

(** [customInitialMargin] is [null] ([None]) or a number. *)
Definition calculateLongLiquidationPrice
  (leverage openPrice quantity addMargin : number)
  (customInitialMargin : option number) : Margins :=
  let initialMargin :=
    match customInitialMargin with
    | Some c =>
        if (c >? Fin 0)%num then c
        else
          let positionValue := (quantity * openPrice)%num in
          (positionValue / leverage)%num
    | None =>
        let positionValue := (quantity * openPrice)%num in
        (positionValue / leverage)%num
    end in
  let totalMargin := (initialMargin + addMargin)%num in
  let liquidationPrice := (openPrice - totalMargin / quantity)%num in
  {| price := liquidationPrice; initial := initialMargin; total := totalMargin |}.

Definition calculateShortLiquidationPrice
  (leverage openPrice quantity addMargin : number)
  (customInitialMargin : option number) : Margins :=
  let initialMargin :=
    match customInitialMargin with
    | Some c =>
        if (c >? Fin 0)%num then c
        else
          let positionValue := (quantity * openPrice)%num in
          (positionValue / leverage)%num
    | None =>
        let positionValue := (quantity * openPrice)%num in
        (positionValue / leverage)%num
    end in
  let totalMargin := (initialMargin + addMargin)%num in
  let liquidationPrice := (openPrice + totalMargin / quantity)%num in
  {| price := liquidationPrice; initial := initialMargin; total := totalMargin |}.

(** [leverage < 1 || leverage > 125] on the raw argument. *)
Definition outsideUsualRange (leverage : value) : bool :=
  (toNumber leverage <? Fin 1)%num || (toNumber leverage >? Fin 125)%num.

(** [customInitialMargin !== null ? parseFloat(customInitialMargin) : null]. *)
Definition parsedMargin (customInitialMargin : value) : option number :=
  if negb (isNull customInitialMargin) then Some (parseFloat customInitialMargin)
  else None.

Definition calculateLiquidation
  (leverage openPrice quantity addMargin customInitialMargin : value)
  : W LiquidationResult :=
  let customInitialMargin := defaultNull customInitialMargin in
  let validation :=
    validateRequiredFields [("开仓价格", openPrice); ("数量", quantity)] in
  if negb (isValid validation) then throw (message validation)
  else
    (if isNull customInitialMargin
        || (toNumber customInitialMargin <=? Fin 0)%num
     then
       if negb (isValidNumber leverage) || negb (isPositive leverage)
       then throw "请输入杠杆倍数或初始保证金"
       else if outsideUsualRange leverage
       then consoleWarn "杠杆倍数超出常规范围(1-125)"
       else ret tt
     else ret tt) ;;
    if negb (isPositive openPrice) then throw "开仓价格必须大于0"
    else if negb (isPositive quantity) then throw "数量必须大于0"
    else if negb (isNonNegative addMargin) then throw "增加保证金不能为负数"
    else if negb (isNull customInitialMargin)
            && negb (isNonNegative customInitialMargin)
    then throw "初始保证金不能为负数"
    else if isExtremeValue openPrice || isExtremeValue quantity
            || isExtremeValue addMargin
            || (negb (isNull customInitialMargin)
                && isExtremeValue customInitialMargin)
    then throw "输入值超出合理范围"
    else
      long <- config.isLong ;;
      let result :=
        if long then
          calculateLongLiquidationPrice
            (orElse (parseFloat leverage) (Fin 0)) (parseFloat openPrice)
            (parseFloat quantity) (parseFloat addMargin)
            (parsedMargin customInitialMargin)
        else
          calculateShortLiquidationPrice
            (orElse (parseFloat leverage) (Fin 0)) (parseFloat openPrice)
            (parseFloat quantity) (parseFloat addMargin)
            (parsedMargin customInitialMargin) in
      if negb (isValidNumber (VNum (price result)))
         || (price result <=? Fin 0)%num
      then throw "计算结果无效，请检查输入参数"
      else
        ret {| liquidationPrice := price result;
               initialMargin := initial result;
               totalMargin := total result;
               isWarning := outsideUsualRange leverage |}.

End liquidationCalculator.

(** ** positionCalculator.js *)

Module positionCalculator.

Import validator.
Local Open Scope string_scope.

(** The two shapes of the returned object; [calculationType] is its tag. *)
Inductive PositionResult : Type :=
| ByAmount (quantity stopLossAmount : number)
| ByPercent (positionValue stopLossPercent : number).

Definition calculationType (r : PositionResult) : string :=
  match r with ByAmount _ _ => "amount" | ByPercent _ _ => "percent" end.

(** [r.quantity] and [r.positionValue]; [None] is [undefined]. *)
Definition quantity (r : PositionResult) : option number :=
  match r with ByAmount q _ => Some q | ByPercent _ _ => None end.

Definition positionValue (r : PositionResult) : option number :=
  match r with ByAmount _ _ => None | ByPercent p _ => Some p end.

Definition calculatePositionByAmount (plannedLoss stopLossAmount : number)
  : PositionResult :=
  let quantity := (plannedLoss / stopLossAmount)%num in
  ByAmount quantity stopLossAmount.

Definition calculatePositionByPercent (plannedLoss stopLossPercent : number)
  : PositionResult :=
  let percentDecimal := (stopLossPercent / Fin 100)%num in
  let positionValue := (plannedLoss / percentDecimal)%num in
  ByPercent positionValue stopLossPercent.

Definition calculatePosition (plannedLoss stopLossAmount stopLossPercent : value)
  : W PositionResult :=
  let stopLossAmount := defaultNull stopLossAmount in
  let stopLossPercent := defaultNull stopLossPercent in
  let validation := validateRequiredFields [("计划亏损金额", plannedLoss)] in
  if negb (isValid validation) then throw (message validation)
  else if negb (isPositive plannedLoss) then throw "计划亏损金额必须大于0"
  else if isExtremeValue plannedLoss then throw "计划亏损金额超出合理范围"
  else if negb (isNull stopLossAmount) && isValidNumber stopLossAmount then
    let amount := parseFloat stopLossAmount in
    if negb (isPositive (VNum amount)) then throw "止损幅度必须大于0"
    else if isExtremeValue (VNum amount) then throw "止损幅度超出合理范围"
    else ret (calculatePositionByAmount (parseFloat plannedLoss) amount)
  else if negb (isNull stopLossPercent) && isValidNumber stopLossPercent then
    let percent := parseFloat stopLossPercent in
    if negb (isPositive (VNum percent)) then throw "止损百分比必须大于0"
    else if (percent >? Fin 100)%num then throw "止损百分比不能超过100%"
    else ret (calculatePositionByPercent (parseFloat plannedLoss) percent)
  else throw "请输入止损幅度或止损百分比".

End positionCalculator.

(** ** averagePriceCalculator.js *)

Module averagePriceCalculator.

Import validator.
Local Open Scope string_scope.

Record AverageResult : Type := {
  averagePrice : number;
  totalQuantity : number;
  totalCost : number
}.

Definition removePosition (id : Z) : W unit :=
  modify (fun w =>
            setPositions (filter (fun p => negb (Z.eqb (Fill.id p) id)) (positions w)) w).

Definition getAllPositions : W (list FillRecord) := gets positions.

Definition clearPositions : W unit := modify (setPositions []).

Definition calculateAveragePrice : W AverageResult :=
  ps <- gets positions ;;
  if Nat.eqb (List.length ps) 0 then throw "暂无开仓记录"
  else
    let '(totalQuantity, totalCost) :=
      fold_left
        (fun '(totalQuantity, totalCost) position =>
           ((totalQuantity + Fill.quantity position)%num,
            (totalCost + Fill.totalCost position)%num))
        ps (Fin 0, Fin 0) in
    let averagePrice :=
      if (totalQuantity >? Fin 0)%num then (totalCost / totalQuantity)%num
      else Fin 0 in
    ret {| averagePrice := averagePrice; totalQuantity := totalQuantity;
           totalCost := totalCost |}.

Section Clock.

(** [now n] is what the [n]-th call of [Date.now()] returns, counting
    from 0: the time in milliseconds. *)
Variable now : nat -> Z.

Definition dateNow : W Z :=
  fun w =>
    (Return (now (dateCalls w)),
     {| config := config w; positions := positions w;
        dateCalls := S (dateCalls w); console := console w |}).

Definition addPosition (quantity price : value) : W FillRecord :=
  let validation :=
    validateRequiredFields [("数量", quantity); ("价格", price)] in
  if negb (isValid validation) then throw (message validation)
  else if negb (isPositive quantity) then throw "数量必须大于0"
  else if negb (isPositive price) then throw "价格必须大于0"
  else if isExtremeValue quantity || isExtremeValue price
  then throw "输入值超出合理范围"
  else
    makerRate <- config.getMakerFeeRate ;;
    let fee := (parseFloat price * makerRate)%num in
    let actualCost := (parseFloat price + fee)%num in
    id <- dateNow ;;
    let position :=
      {| Fill.id := id;
         Fill.quantity := parseFloat quantity;
         Fill.price := parseFloat price;
         Fill.fee := fee;
         Fill.actualCost := actualCost;
         Fill.totalCost := (parseFloat quantity * actualCost)%num |} in
    modify (fun w => setPositions (positions w ++ [position])%list w) ;;
    ret position.

(** The configuration listener registered by [initAveragePriceCalculator];
    the two calls that redraw the page after the loop are not modelled. *)
Definition onConfigChange (key : string) (v : ConfigValue) : W unit :=
  if String.eqb key "makerFeeRate" then
    oldPositions <- gets positions ;;
    modify (setPositions []) ;;
    forEach
      (fun pos =>
         tryCatch
           (addPosition (VNum (Fill.quantity pos)) (VNum (Fill.price pos)) ;;
            ret tt)
           (fun _ => consoleError "Error recalculating position:"))
      oldPositions
  else ret tt.

End Clock.

End averagePriceCalculator.

(** ** Vocabulary of the specification *)

Local Open Scope string_scope.

(** A valid, positive, non-extreme number. *)
Definition usable (v : value) : bool :=
  validator.isValidNumber v && validator.isPositive v
  && negb (validator.isExtremeValue v).

(** The state in which the page starts. *)
Definition initialWorld : World :=
  {| config := config.defaultConfig; positions := []; dateCalls := 0;
     console := [] |}.

(** [calculateLiquidation] asks for a leverage when the custom initial
    margin is absent or not above 0. *)
Definition leverageRequired (customInitialMargin : value) : bool :=
  isNull customInitialMargin || (toNumber customInitialMargin <=? Fin 0)%num.

(** The arguments of [calculateLiquidation] pass its validation. *)
Definition liquidationInputsValid
  (leverage openPrice quantity addMargin customInitialMargin : value) : bool :=
  let c := defaultNull customInitialMargin in
  (if leverageRequired c then validator.isPositive leverage else true)
  && validator.isPositive openPrice && validator.isPositive quantity
  && validator.isNonNegative addMargin
  && (isNull c || validator.isNonNegative c)
  && negb (validator.isExtremeValue openPrice)
  && negb (validator.isExtremeValue quantity)
  && negb (validator.isExtremeValue addMargin)
  && (isNull c || negb (validator.isExtremeValue c)).

(** What the validation of [calculateLiquidation] leaves on the console. *)
Definition afterLeverageCheck (leverage customInitialMargin : value) (w : World)
  : World :=
  if leverageRequired (defaultNull customInitialMargin)
     && liquidationCalculator.outsideUsualRange leverage
  then logEntry (ConsoleWarn "杠杆倍数超出常规范围(1-125)") w
  else w.

(** The sum of a list of numbers, accumulated from 0 in the order of the
    list. *)
Definition sum (l : list number) : number := fold_left Num.add l (Fin 0).

(** A fill record whose quantity and price are valid, positive and
    non-extreme, as [addPosition] requires of its arguments. *)
Definition wellFormed (p : FillRecord) : bool :=
  usable (VNum (Fill.quantity p)) && usable (VNum (Fill.price p)).

(** The record [addPosition] makes of a quantity and a price at the maker
    fee rate [rate], with the identifier [id]. *)
Definition fillRecord (id : Z) (quantity price rate : number) : FillRecord :=
  let fee := (price * rate)%num in
  let actualCost := (price + fee)%num in
  {| Fill.id := id; Fill.quantity := quantity; Fill.price := price;
     Fill.fee := fee; Fill.actualCost := actualCost;
     Fill.totalCost := (quantity * actualCost)%num |}.

(** The derived fields of a record are those of its quantity and price at
    the rate [rate]. *)
Definition derivedAt (rate : number) (p : FillRecord) : Prop :=
  Fill.fee p = (Fill.price p * rate)%num
  /\ Fill.actualCost p = (Fill.price p + Fill.fee p)%num
  /\ Fill.totalCost p = (Fill.quantity p * Fill.actualCost p)%num.

(** The records that replace [old] when each well-formed one is made
    again at the rate [rate], the [n]-th reading of the clock onwards. *)
Fixpoint recreate (now : nat -> Z) (rate : number) (n : nat)
  (old : list FillRecord) : list FillRecord :=
  match old with
  | [] => []
  | p :: rest =>
      if wellFormed p then
        fillRecord (now n) (Fill.quantity p) (Fill.price p) rate
        :: recreate now rate (S n) rest
      else recreate now rate n rest
  end.

(** The calls of the setters of config.js. *)
Inductive SetterCall : Type :=
| SetDirection (d : value)
| SetMakerFeeRate (rate : value)
| SetTakerFeeRate (rate : value)
| ResetConfig.

Definition runSetter (listenerBody : Listener -> string -> ConfigValue -> W unit)
  (call : SetterCall) : M unit :=
  match call with
  | SetDirection d => config.setDirection listenerBody d
  | SetMakerFeeRate rate => config.setMakerFeeRate listenerBody rate
  | SetTakerFeeRate rate => config.setTakerFeeRate listenerBody rate
  | ResetConfig => config.resetConfig listenerBody
  end.

(** A rate a setter accepts: a number that is not negative. *)
Definition acceptableRate (rate : value) : bool :=
  negb (isNaN (parseFloat rate)) && negb (parseFloat rate <? Fin 0)%num.

(** The call is successful: its argument is accepted. *)
Definition succeeds (call : SetterCall) : bool :=
  match call with
  | SetDirection d => config.isDirection d LONG || config.isDirection d SHORT
  | SetMakerFeeRate rate | SetTakerFeeRate rate => acceptableRate rate
  | ResetConfig => true
  end.

(** The configuration a successful call stores. *)
Definition stored (call : SetterCall) (c : Config) : Config :=
  match call with
  | SetDirection d =>
      config.withDirection (if config.isDirection d LONG then LONG else SHORT) c
  | SetMakerFeeRate rate =>
      config.withMakerFeeRate (parseFloat rate / Fin 100)%num c
  | SetTakerFeeRate rate =>
      config.withTakerFeeRate (parseFloat rate / Fin 100)%num c
  | ResetConfig =>
      {| direction := LONG; makerFeeRate := Fin (2 # 10000);
         takerFeeRate := Fin (5 # 10000); listeners := listeners c |}
  end.

(** The key and the new value a successful call announces. *)
Definition announced (call : SetterCall) : string * ConfigValue :=
  match call with
  | SetDirection d =>
      ("direction",
       OfDirection (if config.isDirection d LONG then LONG else SHORT))
  | SetMakerFeeRate rate =>
      ("makerFeeRate", OfRate (parseFloat rate / Fin 100)%num)
  | SetTakerFeeRate rate =>
      ("takerFeeRate", OfRate (parseFloat rate / Fin 100)%num)
  | ResetConfig =>
      ("reset",
       OfSnapshot {| snapDirection := LONG;
                     snapMakerFeeRate := Fin (2 # 10000);
                     snapTakerFeeRate := Fin (5 # 10000);
                     snapTotalFeeRate := (Fin (2 # 10000) + Fin (5 # 10000))%num |})
  end.

(** What a rejected call writes to the console. *)
Definition complaint (call : SetterCall) : string :=
  match call with
  | SetDirection _ => "Invalid direction:"
  | SetMakerFeeRate _ => "Invalid maker fee rate:"
  | SetTakerFeeRate _ => "Invalid taker fee rate:"
  | ResetConfig => ""
  end.

(** The world after one listener was called inside the try block of
    [notifyListeners]: what the listener left, with a line on the console
    when it raised. *)
Definition afterListener
  (listenerBody : Listener -> string -> ConfigValue -> W unit)
  (key : string) (v : ConfigValue) (w : World) (l : Listener) : World :=
  match listenerBody l key v w with
  | (Return _, w') => w'
  | (Throw _, w') => logEntry (ConsoleError "Error in config listener:") w'
  end.

(** Both fee rates are numbers that are not negative. *)
Definition ratesNonNegative (c : Config) : bool :=
  (makerFeeRate c >=? Fin 0)%num && (takerFeeRate c >=? Fin 0)%num.

(** Listeners for the examples: listener 1 raises, listener 2 is the
    listener of the average price tracker on a clock that stands still,
    every other one writes a line to the console. *)
Definition sampleListeners (l : Listener) (key : string) (v : ConfigValue)
  : W unit :=
  match l with
  | 1%nat => throw "listener failed"
  | 2%nat => averagePriceCalculator.onConfigChange (fun _ => 1700000000000%Z) key v
  | _ => consoleWarn key
  end.

(** The operations on the records of the average price tracker. *)
Inductive TrackerCall : Type :=
| AddPosition (quantity price : value)
| RemovePosition (id : Z)
| ClearPositions
| ConfigChanged (key : string) (v : ConfigValue).

Definition runTracker (now : nat -> Z) (call : TrackerCall) : W unit :=
  match call with
  | AddPosition quantity price =>
      averagePriceCalculator.addPosition now quantity price ;; ret tt
  | RemovePosition id => averagePriceCalculator.removePosition id
  | ClearPositions => averagePriceCalculator.clearPositions
  | ConfigChanged key v => averagePriceCalculator.onConfigChange now key v
  end.

(** The world after the listeners of the list were registered with
    [addConfigListener], one call after the other. *)
Definition registerAll (ls : list Listener) (w : World) : World :=
  fold_left
    (fun w' l => snd (config.addConfigListener (config.Function l) w')) ls w.

(** The numbers of a list ascend. *)
Fixpoint ascends (l : list Z) : Prop :=
  match l with
  | [] => True
  | i :: rest =>
      match rest with
      | [] => True
      | j :: _ => (i <= j)%Z /\ ascends rest
      end
  end.

(** A listener that removes itself when it is called; every other listener
    writes a line to the console. *)
Definition selfRemovingListener (l : Listener) (key : string) (v : ConfigValue)
  : W unit :=
  match l with
  | O => config.removeConfigListener (config.Function O)
  | _ => consoleWarn key
  end.

(** ** liquidationCalculator.js: the handler of the button

    The handler that [initLiquidationCalculator] attaches to the button
    reads the five fields of the form, which are strings, and calls
    [calculateLiquidation] with them; this is the handler up to that call.
    What it writes to the page afterwards is not modelled. *)

(** ToBoolean on a string: only the empty string is falsy. *)
Definition truthyString (s : string) : bool := negb (String.eqb s "").

Definition calculateLiquidationFromFields
  (liqLeverage liqOpenPrice liqQuantity liqInitialMargin liqAddMargin : string)
  : W liquidationCalculator.LiquidationResult :=
  let leverage := VStr liqLeverage in
  let openPrice := VStr liqOpenPrice in
  let quantity := VStr liqQuantity in
  let initialMargin := VStr liqInitialMargin in
  let addMargin :=
    if truthyString liqAddMargin then VStr liqAddMargin else VNum (Fin 0) in
  let customInitialMargin :=
    if truthyString liqInitialMargin && (parseFloat initialMargin >? Fin 0)%num
    then VNum (parseFloat initialMargin)
    else VNull in
  liquidationCalculator.calculateLiquidation leverage openPrice quantity
    addMargin customInitialMargin.

(** ** themeManager.js

    The theme is kept in one item of [localStorage]; applying it changes
    the class list of the body and of the two icons, when they exist, and
    dispatches an event on the window.  [Page] holds what these functions
    read and write. *)

Module themeManager.

Definition DARK_MODE_CLASS : string := "dark-mode".

Record Page : Type := {
  (** [localStorage.getItem(THEME_KEY)]; [None] is [null] *)
  storedTheme : option string;
  (** [document.body.classList] *)
  bodyClasses : list string;
  (** the class lists of the elements [sunIcon] and [moonIcon]; [None]
      when [getElementById] finds no such element *)
  sunIcon : option (list string);
  moonIcon : option (list string);
  (** [document.body.style.transition] *)
  bodyTransition : string;
  (** the types of the events dispatched on the window, oldest first *)
  dispatched : list string;
  (** the delays of the pending [setTimeout] callbacks, each of which
      clears the transition of the body *)
  timeouts : list nat
}.

(** [classList.add(token)] and [classList.remove(token)]. *)
Definition classAdd (token : string) (classes : list string) : list string :=
  if existsb (String.eqb token) classes then classes
  else (classes ++ [token])%list.

Definition classRemove (token : string) (classes : list string) : list string :=
  filter (fun c => negb (String.eqb c token)) classes.

Definition classContains (token : string) (classes : list string) : bool :=
  existsb (String.eqb token) classes.

Definition getCurrentTheme (p : Page) : string :=
  match storedTheme p with
  | Some theme => if truthyString theme then theme else "light"
  | None => "light"
  end.

(** [if (icon) icon.classList.add/remove('hidden')]. *)
Definition iconHide (icon : option (list string)) : option (list string) :=
  match icon with
  | Some classes => Some (classAdd "hidden" classes)
  | None => None
  end.

Definition iconShow (icon : option (list string)) : option (list string) :=
  match icon with
  | Some classes => Some (classRemove "hidden" classes)
  | None => None
  end.

Definition updateDirectionButtonsForTheme (p : Page) : Page :=
  {| storedTheme := storedTheme p; bodyClasses := bodyClasses p;
     sunIcon := sunIcon p; moonIcon := moonIcon p;
     bodyTransition := bodyTransition p;
     dispatched := (dispatched p ++ ["themeChanged"])%list;
     timeouts := timeouts p |}.

Definition applyTheme (theme : string) (p : Page) : Page :=
  let p' :=
    if String.eqb theme "dark" then
      {| storedTheme := storedTheme p;
         bodyClasses := classAdd DARK_MODE_CLASS (bodyClasses p);
         sunIcon := iconHide (sunIcon p); moonIcon := iconShow (moonIcon p);
         bodyTransition := bodyTransition p; dispatched := dispatched p;
         timeouts := timeouts p |}
    else
      {| storedTheme := storedTheme p;
         bodyClasses := classRemove DARK_MODE_CLASS (bodyClasses p);
         sunIcon := iconShow (sunIcon p); moonIcon := iconHide (moonIcon p);
         bodyTransition := bodyTransition p; dispatched := dispatched p;
         timeouts := timeouts p |} in
  updateDirectionButtonsForTheme p'.

Definition setTheme (theme : string) (p : Page) : Page :=
  applyTheme theme
    {| storedTheme := Some theme; bodyClasses := bodyClasses p;
       sunIcon := sunIcon p; moonIcon := moonIcon p;
       bodyTransition := bodyTransition p; dispatched := dispatched p;
       timeouts := timeouts p |}.

Definition toggleTheme (p : Page) : Page :=
  let currentTheme := getCurrentTheme p in
  let newTheme := if String.eqb currentTheme "light" then "dark" else "light" in
  let p' := setTheme newTheme p in
  {| storedTheme := storedTheme p'; bodyClasses := bodyClasses p';
     sunIcon := sunIcon p'; moonIcon := moonIcon p';
     bodyTransition := "background 0.5s ease, color 0.5s ease";
     dispatched := dispatched p';
     timeouts := (timeouts p' ++ [500%nat])%list |}.

Definition isDarkMode (p : Page) : bool :=
  String.eqb (getCurrentTheme p) "dark".

End themeManager.

(** * Properties *)

(** ** Numbers and conversions *)

Lemma Qltb_lt (a b : Q) : Qltb a b = true <-> a < b.
Proof.
  unfold Qltb. rewrite negb_true_iff. split; intros H.
  - apply Qnot_le_lt. intros Hle. apply Qle_bool_iff in Hle. congruence.
  - destruct (Qle_bool b a) eqn:E; [|reflexivity].
    apply Qle_bool_iff in E. exfalso. exact (Qlt_not_le _ _ H E).
Qed.

Lemma Qltb_ge (a b : Q) : Qltb a b = false <-> b <= a.
Proof.
  unfold Qltb. rewrite negb_false_iff. apply Qle_bool_iff.
Qed.

Lemma Qeq_bool_false (a b : Q) : Qeq_bool a b = false <-> ~ a == b.
Proof.
  split.
  - apply Qeq_bool_neq.
  - intros H. destruct (Qeq_bool a b) eqn:E; [|reflexivity].
    apply Qeq_bool_iff in E. contradiction.
Qed.

Lemma gt_Fin0 (x : number) :
  (x >? Fin 0)%num = true -> x = PInf \/ exists q, x = Fin q /\ 0 < q.
Proof.
  destruct x as [q| | |]; simpl; try discriminate; auto.
  intros H. right. exists q. split; [reflexivity|]. now apply Qltb_lt.
Qed.

Lemma radixPrefix_scanDecimal (t r : list ascii) (radix : Z) :
  radixPrefix t = Some (radix, r) ->
  exists q rest, scanDecimal t = Some (Fin q, rest) /\ q == 0.
Proof.
  destruct t as [|z [|c t']]; simpl; try discriminate.
  destruct (Ascii.eqb z "0") eqn:Ez; [|discriminate].
  apply Ascii.eqb_eq in Ez. subst z.
  unfold radixOf.
  repeat match goal with
         | |- context [ (Ascii.eqb c ?a || Ascii.eqb c ?b)%bool ] =>
             let E := fresh "E" in
             destruct (Ascii.eqb c a || Ascii.eqb c b)%bool eqn:E;
             [ apply orb_true_iff in E; destruct E as [E|E];
               apply Ascii.eqb_eq in E; subst c; intros _;
               vm_compute; eexists; eexists; split; reflexivity
             | ]
         end.
  discriminate.
Qed.

(** On a valid number the two conversions agree, except on the
    non-decimal integer literals, of which [parseFloat] reads the leading
    zero only. *)
Lemma parseFloat_toNumber (v : value) :
  isFinite (toNumber v) = true -> isNaN (parseFloat v) = false ->
  parseFloat v = toNumber v \/ exists q, parseFloat v = Fin q /\ q == 0.
Proof.
  destruct v as [| |n|s]; simpl; try discriminate; auto.
  unfold stringToNumber, parseFloatString.
  destruct (trimStart (list_ascii_of_string s)) as [|c t] eqn:Et.
  - simpl. discriminate.
  - destruct (radixPrefix (c :: t)) as [[radix r]|] eqn:Er.
    + intros _ _. right.
      destruct (radixPrefix_scanDecimal _ Er) as (q & rest & Hs & Hq).
      rewrite Hs. eauto.
    + destruct (scanDecimal (c :: t)) as [[x rest]|]; [|discriminate].
      destruct (allWhiteSpace rest); [auto|discriminate].
Qed.

Import validator.

Lemma isValidNumber_parts (v : value) :
  isValidNumber v = true ->
  isEmpty v = false /\ isNaN (parseFloat v) = false
  /\ isFinite (toNumber v) = true.
Proof.
  unfold isValidNumber, isEmpty. intros H.
  rewrite !andb_true_iff, !negb_true_iff in H.
  destruct H as ((((H1 & H2) & H3) & H4) & H5).
  repeat split; try assumption.
  now rewrite H1, H2, H3.
Qed.

Lemma isValidNumber_finite (v : value) :
  isValidNumber v = true -> exists q, parseFloat v = Fin q.
Proof.
  intros H. destruct (isValidNumber_parts _ H) as (_ & Hn & Hf).
  destruct (parseFloat_toNumber _ Hf Hn) as [E|(q & E & _)]; [|eauto].
  rewrite E. destruct (toNumber v); try discriminate. eauto.
Qed.

Lemma isPositive_parts (v : value) :
  isPositive v = true ->
  isValidNumber v = true /\ isEmpty v = false
  /\ exists q, parseFloat v = Fin q /\ toNumber v = Fin q /\ 0 < q.
Proof.
  unfold isPositive. intros H. apply andb_true_iff in H. destruct H as [Hv Hp].
  destruct (isValidNumber_parts _ Hv) as (He & Hn & Hf).
  repeat split; try assumption.
  destruct (gt_Fin0 _ Hp) as [E|(q & E & Hq)].
  - destruct (isValidNumber_finite _ Hv) as [q E']. congruence.
  - exists q. split; [assumption|]. split; [|assumption].
    destruct (parseFloat_toNumber _ Hf Hn) as [E'|(q' & E' & Hz)].
    + congruence.
    + rewrite E in E'. injection E' as ->. rewrite Hz in Hq.
      exfalso. exact (Qlt_irrefl _ Hq).
Qed.

Lemma isNonNegative_parts (v : value) :
  isNonNegative v = true ->
  isValidNumber v = true /\ exists q, parseFloat v = Fin q /\ 0 <= q.
Proof.
  unfold isNonNegative. intros H. apply andb_true_iff in H. destruct H as [Hv Hp].
  split; [assumption|].
  destruct (isValidNumber_finite _ Hv) as [q E]. exists q. split; [assumption|].
  rewrite E in Hp. simpl in Hp. now apply Qle_bool_iff.
Qed.

Lemma usable_parts (v : value) :
  usable v = true ->
  isValidNumber v = true /\ isEmpty v = false /\ isPositive v = true
  /\ isExtremeValue v = false
  /\ exists q, parseFloat v = Fin q /\ toNumber v = Fin q /\ 0 < q.
Proof.
  unfold usable. rewrite !andb_true_iff, negb_true_iff.
  intros [[Hv Hp] He].
  destruct (isPositive_parts _ Hp) as (_ & Hne & Hq). auto.
Qed.

Ltac run_eff :=
  unfold bind, ret, gets, throw, modify, tryCatch, lift; simpl.

(** ** The profit engine *)

Import profitCalculator.

(** C1: on four valid, positive, non-extreme arguments [calculateProfit]
    returns, without changing anything, the profit
    [quantity * (closePrice - openPrice) - fees] when the direction is LONG
    and [quantity * (openPrice - closePrice) - fees] when it is SHORT, with
    [fees = quantity * openPrice * makerFeeRate
            + quantity * closePrice * takerFeeRate]
    at the rates the configuration holds at the call; the result carries
    [openFee], [closeFee], [totalFee = openFee + closeFee] and
    [profitRate = profit / (quantity * openPrice)], or 0 when that cost is
    not above 0. *)
Theorem calculateProfit_formula
  (leverage openPrice closePrice quantity : value) (w : World) :
  usable leverage = true -> usable openPrice = true ->
  usable closePrice = true -> usable quantity = true ->
  let q := parseFloat quantity in
  let o := parseFloat openPrice in
  let c := parseFloat closePrice in
  let openFee := (q * o * makerFeeRate (config w))%num in
  let closeFee := (q * c * takerFeeRate (config w))%num in
  let fees := (openFee + closeFee)%num in
  let profit :=
    match direction (config w) with
    | LONG => (q * (c - o) - fees)%num
    | SHORT => (q * (o - c) - fees)%num
    end in
  let cost := (q * o)%num in
  calculateProfit leverage openPrice closePrice quantity w
  = (Return {| profit := profit;
               profitRate := if (cost >? Fin 0)%num then (profit / cost)%num
                             else Fin 0;
               totalFee := fees;
               openFee := openFee;
               closeFee := closeFee |}, w).
Proof.
  intros Hl Ho Hc Hq.
  destruct (usable_parts _ Hl) as (Vl & El & Pl & Xl & _).
  destruct (usable_parts _ Ho) as (Vo & Eo & Po & Xo & (qo & Fo & No & Lo)).
  destruct (usable_parts _ Hc) as (Vc & Ec & Pc & Xc & (qc & Fc & Nc & _)).
  destruct (usable_parts _ Hq) as (Vq & Eq & Pq & Xq & (qq & Fq & Nq & Lq)).
  cbv zeta.
  unfold calculateProfit. cbn [validateRequiredFields].
  rewrite El, Eo, Ec, Eq, Vl, Vo, Vc, Vq, Pl, Po, Pc, Pq, Xl, Xo, Xc, Xq.
  cbn [negb isValid orb].
  unfold calculateLongProfit, calculateShortProfit, calculateOpenFee,
    calculateCloseFee, config.isLong, config.getMakerFeeRate,
    config.getTakerFeeRate.
  rewrite Fo, Fc, Fq. run_eff. rewrite No, Nc, Nq.
  destruct (direction (config w)); reflexivity.
Qed.

Lemma calculateProfit_formula_witness :
  exists r,
    calculateProfit (VStr "10") (VNum (Fin 100)) (VStr "110") (VNum (Fin 2))
      initialWorld = (Return r, initialWorld)
    /\ openFee r = (Fin 2 * Fin 100 * Fin (2 # 10000))%num
    /\ closeFee r = (Fin 2 * parseFloat (VStr "110") * Fin (5 # 10000))%num
    /\ totalFee r = (openFee r + closeFee r)%num
    /\ profit r
       = (Fin 2 * (parseFloat (VStr "110") - Fin 100) - totalFee r)%num
    /\ profitRate r
       = (if (Fin 2 * Fin 100 >? Fin 0)%num
          then profit r / (Fin 2 * Fin 100) else Fin 0)%num.
Proof.
  eexists. split.
  - exact (@calculateProfit_formula (VStr "10") (VNum (Fin 100))
             (VStr "110") (VNum (Fin 2)) initialWorld
             eq_refl eq_refl eq_refl eq_refl).
  - repeat split.
Defined.

(** ** The liquidation engine *)

Import liquidationCalculator.

Lemma postCheck_iff (x : number) :
  negb (isValidNumber (VNum x)) || (x <=? Fin 0)%num
  = negb (isFinite x && (x >? Fin 0)%num).
Proof.
  destruct x as [q| | |]; try reflexivity.
  unfold isValidNumber. simpl. unfold Qltb. now rewrite negb_involutive.
Qed.

Lemma Qeq_bool_pos (a : Q) : 0 < a -> Qeq_bool a 0 = false.
Proof.
  intros H. apply Qeq_bool_false. intros E. rewrite E in H.
  exact (Qlt_irrefl _ H).
Qed.

Lemma Qltb_pos (a : Q) : 0 < a -> Qltb 0 a = true.
Proof. apply Qltb_lt. Qed.

Lemma Qltb_neg_pos (a : Q) : 0 < a -> Qltb a 0 = false.
Proof. intros H. apply Qltb_ge. now apply Qlt_le_weak. Qed.

(** The price functions by direction, as [calculateLiquidation] calls them. *)
Lemma leverage_fallback (d : Direction) (L : number) (qo qq qa : Q)
  (pm : option number) :
  0 < qo -> 0 < qq ->
  let calc := fun lev =>
    match d with
    | LONG => calculateLongLiquidationPrice lev (Fin qo) (Fin qq) (Fin qa) pm
    | SHORT => calculateShortLiquidationPrice lev (Fin qo) (Fin qq) (Fin qa) pm
    end in
  calc (orElse L (Fin 0)) = calc L
  \/ (isFinite (price (calc (orElse L (Fin 0)))) = false
      /\ isFinite (price (calc L)) = false).
Proof.
  intros Ho Hq calc.
  assert (Hm : 0 < qq * qo) by (apply Qmult_lt_0_compat; assumption).
  unfold orElse. destruct (truthy L) eqn:T; [left; reflexivity|].
  destruct pm as [c|].
  - destruct (c >? Fin 0)%num eqn:Ec.
    + left. subst calc. destruct d;
        unfold calculateLongLiquidationPrice, calculateShortLiquidationPrice;
        rewrite Ec; reflexivity.
    + right. subst calc. destruct d;
        unfold calculateLongLiquidationPrice, calculateShortLiquidationPrice;
        rewrite Ec; destruct L as [z| | |]; try discriminate; simpl in *;
        rewrite ?negb_false_iff in T; rewrite ?T; simpl;
        rewrite (Qeq_bool_pos Hm), (Qltb_pos Hm); simpl;
        rewrite (Qltb_neg_pos Hq); auto.
  - right. subst calc. destruct d;
      unfold calculateLongLiquidationPrice, calculateShortLiquidationPrice;
      destruct L as [z| | |]; try discriminate; simpl in *;
      rewrite ?negb_false_iff in T; rewrite ?T; simpl;
      rewrite (Qeq_bool_pos Hm), (Qltb_pos Hm); simpl;
      rewrite (Qltb_neg_pos Hq); auto.
Qed.

Lemma calculateLiquidation_accepts
  (leverage openPrice quantity addMargin customInitialMargin : value)
  (w : World) :
  liquidationInputsValid leverage openPrice quantity addMargin
    customInitialMargin = true ->
  let c := defaultNull customInitialMargin in
  let initialMargin :=
    if negb (isNull c) && (parseFloat c >? Fin 0)%num then parseFloat c
    else (parseFloat quantity * parseFloat openPrice / parseFloat leverage)%num in
  let totalMargin := (initialMargin + parseFloat addMargin)%num in
  let liquidationPrice :=
    match direction (config w) with
    | LONG => (parseFloat openPrice - totalMargin / parseFloat quantity)%num
    | SHORT => (parseFloat openPrice + totalMargin / parseFloat quantity)%num
    end in
  calculateLiquidation leverage openPrice quantity addMargin
    customInitialMargin w
  = (if isFinite liquidationPrice && (liquidationPrice >? Fin 0)%num
     then Return {| liquidationPrice := liquidationPrice;
                    initialMargin := initialMargin;
                    totalMargin := totalMargin;
                    isWarning := outsideUsualRange leverage |}
     else Throw "计算结果无效，请检查输入参数",
     afterLeverageCheck leverage customInitialMargin w).
Proof.
  intros H c im tm liq.
  unfold liquidationInputsValid in H. fold c in H.
  rewrite !andb_true_iff, !negb_true_iff in H.
  destruct H as ((((((((Hl & Ho) & Hq) & Ha) & Hc) & Xo) & Xq) & Xa) & Xc).
  unfold afterLeverageCheck. fold c.
  destruct (isPositive_parts _ Ho) as (Vo & Eo & (qo & Fo & _ & Po)).
  destruct (isPositive_parts _ Hq) as (Vq & Eq & (qq & Fq & _ & Pq)).
  destruct (isNonNegative_parts _ Ha) as (Va & (qa & Fa & Pa)).
  set (L := parseFloat leverage) in *.
  set (calc := fun lev =>
         match direction (config w) with
         | LONG =>
             calculateLongLiquidationPrice lev (Fin qo) (Fin qq) (Fin qa)
               (parsedMargin c)
         | SHORT =>
             calculateShortLiquidationPrice lev (Fin qo) (Fin qq) (Fin qa)
               (parsedMargin c)
         end).
  assert (HM : calc L = {| price := liq; initial := im; total := tm |}).
  { subst calc liq tm im. rewrite Fo, Fq, Fa.
    unfold calculateLongLiquidationPrice, calculateShortLiquidationPrice,
      parsedMargin.
    destruct (direction (config w)); destruct (isNull c); cbn [negb andb];
      try reflexivity; destruct (parseFloat c >? Fin 0)%num; reflexivity. }
  pose proof (leverage_fallback (direction (config w)) L qa (parsedMargin c)
                Po Pq) as HL.
  cbv zeta in HL. fold calc in HL. fold (calc L) in HL.
  fold (calc (orElse L (Fin 0))) in HL.
  clearbody liq tm im.
  unfold calculateLiquidation. fold c. cbn [validateRequiredFields].
  rewrite Eo, Eq, Vo, Vq, Ho, Hq, Ha, Xo, Xq, Xa.
  cbn [negb isValid orb andb].
  assert (Hc' : negb (isNull c) && negb (isNonNegative c) = false).
  { destruct (isNull c); [reflexivity|]. simpl in Hc. now rewrite Hc. }
  assert (Xc' : negb (isNull c) && isExtremeValue c = false).
  { destruct (isNull c); [reflexivity|]. simpl in Xc.
    apply negb_true_iff in Xc. now rewrite Xc. }
  rewrite Hc', Xc'. clear Hc' Xc'.
  rewrite Fo, Fq, Fa.
  assert (Hchk :
    forall (A : Type) (k : W A),
      ((if isNull c || (toNumber c <=? Fin 0)%num
        then
          if negb (isValidNumber leverage) || negb (isPositive leverage)
          then throw "请输入杠杆倍数或初始保证金"
          else if outsideUsualRange leverage
               then consoleWarn "杠杆倍数超出常规范围(1-125)"
               else ret tt
        else ret tt) ;; k) w
      = k (if leverageRequired c && outsideUsualRange leverage
           then logEntry (ConsoleWarn "杠杆倍数超出常规范围(1-125)") w
           else w)).
  { intros A k. unfold leverageRequired in *.
    destruct (isNull c || (toNumber c <=? Fin 0)%num); [|reflexivity].
    destruct (isPositive_parts _ Hl) as (Vl & _).
    rewrite Vl, Hl. simpl.
    destruct (outsideUsualRange leverage); reflexivity. }
  rewrite Hchk. clear Hchk.
  set (w' := if leverageRequired c && outsideUsualRange leverage
             then logEntry (ConsoleWarn "杠杆倍数超出常规范围(1-125)") w
             else w).
  assert (Hd : direction (config w') = direction (config w))
    by (subst w'; destruct (leverageRequired c && outsideUsualRange leverage);
        reflexivity).
  clearbody w'.
  unfold config.isLong, bind, gets. rewrite Hd. fold L.
  assert (Hcalc :
    (if match direction (config w) with LONG => true | SHORT => false end
     then calculateLongLiquidationPrice (orElse L (Fin 0)) (Fin qo) (Fin qq)
            (Fin qa) (parsedMargin c)
     else calculateShortLiquidationPrice (orElse L (Fin 0)) (Fin qo) (Fin qq)
            (Fin qa) (parsedMargin c))
    = calc (orElse L (Fin 0)))
    by (subst calc; cbv beta; destruct (direction (config w)); reflexivity).
  rewrite Hcalc, postCheck_iff. clear Hcalc.
  destruct HL as [E|[E1 E2]].
  - rewrite E, HM. cbn [price initial total].
    destruct (isFinite liq && (liq >? Fin 0)%num); reflexivity.
  - rewrite E1. rewrite HM in E2. cbn [price] in E2. rewrite E2. reflexivity.
Qed.

Lemma calculateLiquidation_rejects
  (leverage openPrice quantity addMargin customInitialMargin : value)
  (w : World) :
  liquidationInputsValid leverage openPrice quantity addMargin
    customInitialMargin = false ->
  exists message w',
    calculateLiquidation leverage openPrice quantity addMargin
      customInitialMargin w = (Throw message, w').
Proof.
  unfold liquidationInputsValid, calculateLiquidation, leverageRequired.
  set (c := defaultNull customInitialMargin).
  intros H.
  destruct (isValid _); cbn [negb]; [|eexists; eexists; reflexivity].
  unfold bind at 1.
  destruct (isNull c || (toNumber c <=? Fin 0)%num).
  - destruct (isPositive leverage) eqn:Pl.
    + destruct (isPositive_parts _ Pl) as (Vl & _). rewrite Vl. cbn [negb orb].
      destruct (isPositive openPrice), (isPositive quantity),
        (isNonNegative addMargin);
        try (destruct (outsideUsualRange leverage);
             eexists; eexists; reflexivity).
      destruct (isNull c); cbn [negb andb orb] in *.
      * destruct (isExtremeValue openPrice), (isExtremeValue quantity),
          (isExtremeValue addMargin); try discriminate;
          destruct (outsideUsualRange leverage); eexists; eexists; reflexivity.
      * destruct (isNonNegative c); cbn [negb andb orb] in *;
          try (destruct (outsideUsualRange leverage);
               eexists; eexists; reflexivity).
        destruct (isExtremeValue openPrice), (isExtremeValue quantity),
          (isExtremeValue addMargin), (isExtremeValue c); try discriminate;
          destruct (outsideUsualRange leverage); eexists; eexists; reflexivity.
    + rewrite orb_true_r. eexists; eexists; reflexivity.
  - cbn [ret].
    destruct (isPositive openPrice), (isPositive quantity),
      (isNonNegative addMargin);
      try (eexists; eexists; reflexivity).
    destruct (isNull c); cbn [negb andb orb] in *.
    + destruct (isExtremeValue openPrice), (isExtremeValue quantity),
        (isExtremeValue addMargin); try discriminate;
        eexists; eexists; reflexivity.
    + destruct (isNonNegative c); cbn [negb andb orb] in *;
        try (eexists; eexists; reflexivity).
      destruct (isExtremeValue openPrice), (isExtremeValue quantity),
        (isExtremeValue addMargin), (isExtremeValue c); try discriminate;
        eexists; eexists; reflexivity.
Qed.

(** C2: when the arguments pass the validation, the initial margin is the
    custom initial margin if that is provided and above 0 and
    [quantity * openPrice / leverage] otherwise, the total margin is the
    initial margin plus the added margin, and the liquidation price is
    [openPrice - totalMargin / quantity] for a long position and
    [openPrice + totalMargin / quantity] for a short one; the call returns
    them when the price is a finite number above 0 and raises otherwise. *)
Theorem calculateLiquidation_formula
  (leverage openPrice quantity addMargin customInitialMargin : value)
  (w : World) :
  liquidationInputsValid leverage openPrice quantity addMargin
    customInitialMargin = true ->
  let c := defaultNull customInitialMargin in
  let initialMargin :=
    if negb (isNull c) && (parseFloat c >? Fin 0)%num then parseFloat c
    else (parseFloat quantity * parseFloat openPrice / parseFloat leverage)%num in
  let totalMargin := (initialMargin + parseFloat addMargin)%num in
  let liquidationPrice :=
    match direction (config w) with
    | LONG => (parseFloat openPrice - totalMargin / parseFloat quantity)%num
    | SHORT => (parseFloat openPrice + totalMargin / parseFloat quantity)%num
    end in
  calculateLiquidation leverage openPrice quantity addMargin
    customInitialMargin w
  = (if isFinite liquidationPrice && (liquidationPrice >? Fin 0)%num
     then Return {| liquidationPrice := liquidationPrice;
                    initialMargin := initialMargin;
                    totalMargin := totalMargin;
                    isWarning := outsideUsualRange leverage |}
     else Throw "计算结果无效，请检查输入参数",
     afterLeverageCheck leverage customInitialMargin w).
Proof.
  intros H. exact (calculateLiquidation_accepts _ _ _ _ _ w H).
Qed.

Lemma calculateLiquidation_formula_witness :
  exists r,
    calculateLiquidation (VStr "10") (VStr "100") (VStr "1") (VNum (Fin 0))
      VUndefined initialWorld = (Return r, initialWorld)
    /\ (liquidationPrice r ≡ Fin 90)%num
    /\ (initialMargin r ≡ Fin 10)%num
    /\ (totalMargin r ≡ Fin 10)%num
    /\ isWarning r = false.
Proof.
  eexists. split.
  - exact (@calculateLiquidation_formula (VStr "10") (VStr "100") (VStr "1")
             (VNum (Fin 0)) VUndefined initialWorld eq_refl).
  - repeat split; vm_compute; reflexivity.
Defined.

Lemma Qle_bool_pos (a : Q) : 0 < a -> Qle_bool a 0 = false.
Proof.
  intros H. destruct (Qle_bool a 0) eqn:E; [|reflexivity].
  apply Qle_bool_iff in E. exfalso. exact (Qlt_not_le _ _ H E).
Qed.

(** Whenever a result is returned with a total margin above 0, the
    liquidation price lies below the open price for a long position and
    above it for a short one. *)
Lemma liquidationPrice_side
  (leverage openPrice quantity addMargin customInitialMargin : value)
  (w w' : World) (r : LiquidationResult) :
  calculateLiquidation leverage openPrice quantity addMargin
    customInitialMargin w = (Return r, w') ->
  (totalMargin r >? Fin 0)%num = true ->
  match direction (config w) with
  | LONG => (liquidationPrice r <? parseFloat openPrice)%num = true
  | SHORT => (liquidationPrice r >? parseFloat openPrice)%num = true
  end.
Proof.
  intros Hr Ht.
  destruct (liquidationInputsValid leverage openPrice quantity addMargin
              customInitialMargin) eqn:V.
  - pose proof (calculateLiquidation_accepts _ _ _ _ _ w V) as E.
    cbv zeta in E. rewrite E in Hr. clear E.
    unfold liquidationInputsValid in V.
    rewrite !andb_true_iff in V.
    destruct V as ((((((((_ & Ho) & Hq) & _) & _) & _) & _) & _) & _).
    destruct (isPositive_parts _ Ho) as (_ & _ & (qo & Fo & _ & Po)).
    destruct (isPositive_parts _ Hq) as (_ & _ & (qq & Fq & _ & Pq)).
    rewrite Fo, Fq in *.
    match type of Hr with
    | context [ {| liquidationPrice := _; initialMargin := _;
                   totalMargin := ?t; isWarning := _ |} ] =>
        set (tm := t) in *; clearbody tm
    end.
    match type of Hr with
    | (if ?b then _ else _, _) = _ => destruct b eqn:B; [|discriminate]
    end.
    injection Hr as <- _. cbn [totalMargin liquidationPrice] in *.
    destruct (gt_Fin0 _ Ht) as [E|(t & E & Pt)]; subst tm.
    + destruct (direction (config w)); simpl in B;
        rewrite (Qltb_neg_pos Pq) in B; discriminate.
    + assert (Hd : 0 < t / qq) by (apply Qlt_shift_div_l; [assumption|lra]).
      destruct (direction (config w)); simpl;
        rewrite (Qeq_bool_pos Pq); simpl; apply Qltb_lt; lra.
  - destruct (calculateLiquidation_rejects _ _ _ _ _ w V) as (m & w2 & E).
    congruence.
Qed.

(** C8: with the direction SHORT, the call
    [calculateLiquidation(-2, 100, 1, 0, "0x10")] returns a liquidation
    price of 50, below the open price of 100, on an initial margin of -50:
    the margin string is above 0 as a number, so that the leverage is not
    validated, and reads as 0 with [parseFloat], so that the leverage is
    used. *)
Theorem calculateLiquidation_short_below_open :
  let w := setConfig (config.withDirection SHORT config.defaultConfig)
             initialWorld in
  exists r,
    calculateLiquidation (VNum (Fin (-2))) (VNum (Fin 100)) (VNum (Fin 1))
      (VNum (Fin 0)) (VStr "0x10") w = (Return r, w)
    /\ (liquidationPrice r ≡ Fin 50)%num
    /\ (initialMargin r ≡ Fin (-50))%num
    /\ (totalMargin r ≡ Fin (-50))%num
    /\ (liquidationPrice r >? Fin 100)%num = false.
Proof.
  eexists. split; [vm_compute; reflexivity|].
  repeat split; vm_compute; reflexivity.
Qed.

Lemma isPositive_not_null (v : value) :
  isPositive v = true -> defaultNull v = v /\ isNull v = false.
Proof.
  intros H. destruct (isPositive_parts _ H) as (_ & He & _).
  destruct v; try discriminate; auto.
Qed.

(** C10, as amended: when the custom initial margin is a valid number
    above 0 and within bounds, and the open price, the quantity and the
    added margin are valid, the leverage is not validated: the call raises
    nothing on its account and writes no warning, the margins and the
    price are computed from the custom margin alone, and the call returns
    exactly when the price it computed is finite and above 0; otherwise
    it raises.  The flag [isWarning] of the result is still
    [leverage < 1 || leverage > 125] on the raw argument: true for [null],
    which converts to 0, and false for [undefined], which converts to
    NaN. *)
Theorem calculateLiquidation_custom_margin
  (leverage openPrice quantity addMargin customInitialMargin : value)
  (w : World) :
  isPositive customInitialMargin = true ->
  isExtremeValue customInitialMargin = false ->
  usable openPrice = true -> usable quantity = true ->
  isNonNegative addMargin = true -> isExtremeValue addMargin = false ->
  let initialMargin := parseFloat customInitialMargin in
  let totalMargin := (initialMargin + parseFloat addMargin)%num in
  let liquidationPrice :=
    match direction (config w) with
    | LONG => (parseFloat openPrice - totalMargin / parseFloat quantity)%num
    | SHORT => (parseFloat openPrice + totalMargin / parseFloat quantity)%num
    end in
  calculateLiquidation leverage openPrice quantity addMargin
    customInitialMargin w
  = (if isFinite liquidationPrice && (liquidationPrice >? Fin 0)%num
     then Return {| liquidationPrice := liquidationPrice;
                    initialMargin := initialMargin;
                    totalMargin := totalMargin;
                    isWarning := (toNumber leverage <? Fin 1)%num
                                 || (toNumber leverage >? Fin 125)%num |}
     else Throw "计算结果无效，请检查输入参数", w)
  /\ outsideUsualRange VNull = true
  /\ outsideUsualRange VUndefined = false.
Proof.
  intros Hc Xc Ho Hq Ha Xa im tm liq.
  destruct (usable_parts _ Ho) as (_ & _ & Po & Xo & (qo & Fo & _ & Lo)).
  destruct (usable_parts _ Hq) as (_ & _ & Pq & Xq & (qq & Fq & _ & Lq)).
  destruct (isPositive_parts _ Hc) as (Vc & _ & (qc & Fc & Nc & Lc)).
  destruct (isPositive_not_null _ Hc) as (Dc & Nn).
  destruct (isNonNegative_parts _ Ha) as (_ & (qa & Fa & La)).
  assert (Hreq : leverageRequired (defaultNull customInitialMargin) = false).
  { unfold leverageRequired. rewrite Dc, Nn, Nc. simpl.
    now apply Qle_bool_pos. }
  assert (Hnn : isNonNegative customInitialMargin = true).
  { unfold isNonNegative. rewrite Vc, Fc. simpl. apply Qle_bool_iff.
    now apply Qlt_le_weak. }
  assert (V : liquidationInputsValid leverage openPrice quantity addMargin
                customInitialMargin = true).
  { unfold liquidationInputsValid. cbv zeta.
    rewrite Hreq, Dc, Nn, Po, Pq, Ha, Hnn, Xo, Xq, Xa, Xc. reflexivity. }
  split; [|split; vm_compute; reflexivity].
  rewrite (calculateLiquidation_accepts _ _ _ _ _ w V).
  unfold afterLeverageCheck. rewrite Hreq, Dc, Nn, Fc. cbn [negb andb].
  assert (Hgt : (Fin qc >? Fin 0)%num = true) by (now apply Qltb_lt).
  rewrite Hgt. subst liq tm im. rewrite Fc. reflexivity.
Qed.

(** C10, as stated, fails twice: under LONG a custom margin of 200 on a
    position worth 100 makes the call raise, and an [undefined] leverage
    gives a result whose [isWarning] is false. *)
Lemma calculateLiquidation_custom_margin_counterexample :
  fst (calculateLiquidation VNull (VNum (Fin 100)) (VNum (Fin 1))
         (VNum (Fin 0)) (VNum (Fin 200)) initialWorld)
  = Throw "计算结果无效，请检查输入参数"
  /\ exists r,
       fst (calculateLiquidation VUndefined (VNum (Fin 100)) (VNum (Fin 1))
              (VNum (Fin 0)) (VNum (Fin 5)) initialWorld) = Return r
       /\ isWarning r = false.
Proof.
  split; [reflexivity|]. eexists. split; [vm_compute; reflexivity|reflexivity].
Qed.

Lemma calculateLiquidation_custom_margin_witness :
  exists r,
    calculateLiquidation VNull (VStr "100") (VStr "1") (VNum (Fin 0))
      (VNum (Fin 5)) initialWorld = (Return r, initialWorld)
    /\ isWarning r = true /\ (liquidationPrice r ≡ Fin 95)%num.
Proof.
  pose proof (@calculateLiquidation_custom_margin VNull (VStr "100")
                (VStr "1") (VNum (Fin 0)) (VNum (Fin 5)) initialWorld
                eq_refl eq_refl eq_refl eq_refl eq_refl eq_refl) as H.
  destruct H as (H & _).
  eexists. split; [exact H|]. split; vm_compute; reflexivity.
Defined.

(** ** The position sizer *)

Import positionCalculator.

Lemma isPositive_parsed (v : value) :
  isValidNumber v = true ->
  isPositive (VNum (parseFloat v)) = (parseFloat v >? Fin 0)%num
  /\ isPositive v = (parseFloat v >? Fin 0)%num
  /\ isExtremeValue (VNum (parseFloat v)) = isExtremeValue v.
Proof.
  intros H. destruct (isValidNumber_finite _ H) as [q E].
  unfold isPositive, isExtremeValue. rewrite H, E. repeat split.
Qed.

Lemma isValidNumber_not_null (v : value) :
  isValidNumber v = true -> isNull v = false.
Proof. destruct v; try discriminate; reflexivity. Qed.

Lemma isValidNumber_defaultNull (v : value) :
  isValidNumber (defaultNull v) = isValidNumber v.
Proof. destruct v; reflexivity. Qed.

(** C3: with a valid, positive, non-extreme planned loss,
    [calculatePosition] uses the stop-loss amount when it is a valid
    number: the amount must be above 0 and not extreme, and the result is
    tagged 'amount' and carries [quantity = plannedLoss / stopLossAmount];
    otherwise it uses the stop-loss percentage when that is a valid
    number: the percentage must be above 0 and at most 100, and the result
    is tagged 'percent' and carries
    [positionValue = plannedLoss / (stopLossPercent / 100)]; otherwise it
    raises.  A result holds exactly one of [quantity] and [positionValue],
    and [calculatePosition(100, 0, null)] raises. *)
Theorem calculatePosition_modes
  (plannedLoss stopLossAmount stopLossPercent : value) (w : World) :
  usable plannedLoss = true ->
  let R := parseFloat plannedLoss in
  let amount := parseFloat stopLossAmount in
  let percent := parseFloat stopLossPercent in
  calculatePosition plannedLoss stopLossAmount stopLossPercent w
  = (if isValidNumber stopLossAmount then
       if negb (amount >? Fin 0)%num then Throw "止损幅度必须大于0"
       else if isExtremeValue stopLossAmount then Throw "止损幅度超出合理范围"
       else Return (ByAmount (R / amount) amount)
     else if isValidNumber stopLossPercent then
       if negb (percent >? Fin 0)%num then Throw "止损百分比必须大于0"
       else if (percent >? Fin 100)%num then Throw "止损百分比不能超过100%"
       else Return (ByPercent (R / (percent / Fin 100)) percent)
     else Throw "请输入止损幅度或止损百分比", w)
  /\ (forall r w',
        calculatePosition plannedLoss stopLossAmount stopLossPercent w
        = (Return r, w') ->
        (calculationType r = "amount" /\ quantity r <> None
         /\ positionValue r = None)
        \/ (calculationType r = "percent" /\ quantity r = None
            /\ positionValue r <> None))
  /\ calculatePosition (VNum (Fin 100)) (VNum (Fin 0)) VNull w
     = (Throw "止损幅度必须大于0", w).
Proof.
  intros Hp R amount percent.
  destruct (usable_parts _ Hp) as (Vp & Ep & Pp & Xp & _).
  split; [|split; [|reflexivity]].
  - unfold calculatePosition. cbn [validateRequiredFields].
    rewrite Ep, Vp, Pp, Xp. cbn [negb isValid].
    rewrite !isValidNumber_defaultNull.
    destruct (isValidNumber stopLossAmount) eqn:Va.
    + destruct (isPositive_parsed _ Va) as (E1 & _ & E2).
      assert (Hn : isNull (defaultNull stopLossAmount) = false)
        by (apply isValidNumber_not_null; now rewrite isValidNumber_defaultNull).
      assert (Hd : parseFloat (defaultNull stopLossAmount) = amount)
        by (destruct stopLossAmount; reflexivity).
      rewrite Hn, Hd. cbn [negb andb]. fold amount in E1, E2.
      rewrite E1, E2.
      destruct (amount >? Fin 0)%num; [|reflexivity].
      destruct (isExtremeValue stopLossAmount); reflexivity.
    + rewrite andb_false_r.
      destruct (isValidNumber stopLossPercent) eqn:Vq.
      * destruct (isPositive_parsed _ Vq) as (E1 & _ & _).
        assert (Hn : isNull (defaultNull stopLossPercent) = false)
          by (apply isValidNumber_not_null;
              now rewrite isValidNumber_defaultNull).
        assert (Hd : parseFloat (defaultNull stopLossPercent) = percent)
          by (destruct stopLossPercent; reflexivity).
        rewrite Hn, Hd. cbn [negb andb]. fold percent in E1. rewrite E1.
        destruct (percent >? Fin 0)%num; [|reflexivity].
        destruct (percent >? Fin 100)%num; reflexivity.
      * rewrite andb_false_r. reflexivity.
  - intros r w' _. destruct r; [left|right]; repeat split; discriminate.
Qed.

Lemma calculatePosition_modes_witness :
  exists r,
    calculatePosition (VNum (Fin 100)) VNull (VStr "10") initialWorld
    = (Return r, initialWorld)
    /\ calculationType r = "percent"
    /\ match positionValue r with
       | Some v => (v ≡ Fin 1000)%num
       | None => False
       end.
Proof.
  destruct (@calculatePosition_modes (VNum (Fin 100)) VNull (VStr "10")
              initialWorld eq_refl) as (H & _).
  eexists. split; [exact H|]. split; vm_compute; reflexivity.
Defined.

(** ** The average price tracker *)

Import averagePriceCalculator.

Section Tracker.

Variable now : nat -> Z.

Lemma addPosition_accepts (quantity price : value) (w : World) :
  usable quantity = true -> usable price = true ->
  let record :=
    fillRecord (now (dateCalls w)) (parseFloat quantity) (parseFloat price)
      (makerFeeRate (config w)) in
  addPosition now quantity price w
  = (Return record,
     {| config := config w; positions := positions w ++ [record];
        dateCalls := S (dateCalls w); console := console w |}).
Proof.
  intros Hq Hp record.
  destruct (usable_parts _ Hq) as (Vq & Eq & Pq & Xq & _).
  destruct (usable_parts _ Hp) as (Vp & Ep & Pp & Xp & _).
  unfold addPosition. cbn [validateRequiredFields].
  rewrite Eq, Ep, Vq, Vp, Pq, Pp, Xq, Xp. reflexivity.
Qed.

Lemma addPosition_rejects (quantity price : value) (w : World) :
  usable quantity && usable price = false ->
  exists message, addPosition now quantity price w = (Throw message, w).
Proof.
  unfold usable, addPosition. cbn [validateRequiredFields]. intros H.
  destruct (isEmpty quantity) eqn:Eq; [eexists; reflexivity|].
  destruct (isValidNumber quantity) eqn:Vq; [|eexists; reflexivity].
  destruct (isEmpty price) eqn:Ep; [eexists; reflexivity|].
  destruct (isValidNumber price) eqn:Vp; [|eexists; reflexivity].
  cbn [negb isValid andb] in *.
  destruct (isPositive quantity); [|eexists; reflexivity].
  destruct (isPositive price); [|eexists; reflexivity].
  cbn [negb andb] in *.
  destruct (isExtremeValue quantity), (isExtremeValue price);
    try discriminate; eexists; reflexivity.
Qed.


Lemma usable_parsed (v : value) :
  usable v = true -> usable (VNum (parseFloat v)) = true.
Proof.
  intros H. destruct (usable_parts _ H) as (Hv & _ & Hp & Hx & _).
  destruct (isPositive_parsed _ Hv) as (E1 & E2 & E3).
  destruct (isValidNumber_finite _ Hv) as [q E].
  unfold usable. rewrite E1, <- E2, Hp, E3, Hx, E. reflexivity.
Qed.

Lemma wellFormed_quantity (p : FillRecord) :
  wellFormed p = true -> exists q, Fill.quantity p = Fin q /\ 0 < q.
Proof.
  unfold wellFormed. intros H. apply andb_true_iff in H. destruct H as [H _].
  destruct (usable_parts _ H) as (_ & _ & _ & _ & (q & E & _ & Hq)).
  exists q. split; assumption.
Qed.

Lemma fold_totals (ps : list FillRecord) (x y : number) :
  fold_left
    (fun '(totalQuantity, totalCost) position =>
       ((totalQuantity + Fill.quantity position)%num,
        (totalCost + Fill.totalCost position)%num)) ps (x, y)
  = (fold_left Num.add (map Fill.quantity ps) x,
     fold_left Num.add (map Fill.totalCost ps) y).
Proof.
  revert x y. induction ps as [|p ps IH]; intros x y; [reflexivity|].
  simpl. apply IH.
Qed.

Lemma fold_quantities_positive (ps : list FillRecord) :
  forallb wellFormed ps = true ->
  forall a, 0 <= a ->
  exists b, fold_left Num.add (map Fill.quantity ps) (Fin a) = Fin b
            /\ a <= b /\ (ps <> [] -> a < b).
Proof.
  induction ps as [|p ps IH]; intros H a Ha.
  - exists a. split; [reflexivity|]. split; [lra|]. intros C. now elim C.
  - simpl in H. apply andb_true_iff in H. destruct H as [Hp Hps].
    destruct (wellFormed_quantity _ Hp) as (q & Eq & Hq).
    simpl. rewrite Eq. simpl.
    destruct (IH Hps (a + q)) as (b & Eb & Hb & _); [lra|].
    exists b. split; [assumption|]. split; [lra|]. intros _. lra.
Qed.

(** C4: [calculateAveragePrice] raises exactly when there is no record,
    hence always after [clearPositions]; otherwise it returns the sum of
    the quantities, the sum of the total costs and their quotient.  A
    record made by [addPosition] stores the fee [price * makerFeeRate] at
    the rate of the moment, the actual cost [price + fee] and the total
    cost [quantity * actualCost]. *)
Theorem calculateAveragePrice_spec (w : World) :
  forallb wellFormed (positions w) = true ->
  ((exists message w', calculateAveragePrice w = (Throw message, w'))
   <-> positions w = [])
  /\ (positions w <> [] ->
      let totalQuantity := sum (map Fill.quantity (positions w)) in
      let totalCost := sum (map Fill.totalCost (positions w)) in
      calculateAveragePrice w
      = (Return {| averagePrice := (totalCost / totalQuantity)%num;
                   totalQuantity := totalQuantity;
                   totalCost := totalCost |}, w))
  /\ calculateAveragePrice (snd (clearPositions w))
     = (Throw "暂无开仓记录", snd (clearPositions w))
  /\ (forall quantity price,
        usable quantity = true -> usable price = true ->
        exists r w',
          addPosition now quantity price w = (Return r, w')
          /\ positions w' = (positions w ++ [r])%list
          /\ Fill.quantity r = parseFloat quantity
          /\ Fill.price r = parseFloat price
          /\ Fill.fee r = (parseFloat price * makerFeeRate (config w))%num
          /\ Fill.actualCost r = (parseFloat price + Fill.fee r)%num
          /\ Fill.totalCost r = (parseFloat quantity * Fill.actualCost r)%num
          /\ forallb wellFormed (positions w') = true).
Proof.
  intros Hwf.
  assert (Hne : positions w <> [] ->
                calculateAveragePrice w
                = (Return
                     {| averagePrice :=
                          (sum (map Fill.totalCost (positions w))
                           / sum (map Fill.quantity (positions w)))%num;
                        totalQuantity := sum (map Fill.quantity (positions w));
                        totalCost := sum (map Fill.totalCost (positions w)) |},
                   w)).
  { intros Hn. unfold calculateAveragePrice, bind, gets.
    destruct (positions w) as [|p ps] eqn:Ep; [now elim Hn|].
    cbn [List.length Nat.eqb]. rewrite fold_totals. unfold ret.
    fold (sum (map Fill.quantity (p :: ps))).
    fold (sum (map Fill.totalCost (p :: ps))).
    destruct (@fold_quantities_positive (p :: ps) Hwf 0 (Qle_refl 0))
      as (b & Eb & _ & Hb).
    fold (sum (map Fill.quantity (p :: ps))) in Eb. rewrite Eb.
    assert (Hgt : (Fin b >? Fin 0)%num = true)
      by (apply Qltb_lt; apply Hb; discriminate).
    rewrite Hgt. reflexivity. }
  split; [|split; [exact Hne|split]].
  - split.
    + intros (m & w' & E). destruct (positions w) as [|p ps] eqn:Ep;
        [reflexivity|].
      rewrite Hne in E; discriminate.
    + intros E. exists "暂无开仓记录", w.
      unfold calculateAveragePrice, bind, gets. rewrite E. reflexivity.
  - reflexivity.
  - intros quantity price Hq Hp.
    rewrite (addPosition_accepts quantity price w Hq Hp).
    eexists. eexists. split; [reflexivity|].
    cbn [positions Fill.quantity Fill.price Fill.fee Fill.actualCost
         Fill.totalCost fillRecord].
    repeat split.
    rewrite forallb_app, Hwf. cbn [forallb]. unfold wellFormed.
    cbn [Fill.quantity Fill.price fillRecord].
    now rewrite (usable_parsed _ Hq), (usable_parsed _ Hp).
Qed.

End Tracker.

Lemma calculateAveragePrice_spec_witness :
  let now := fun n => (1700000000000 + Z.of_nat n)%Z in
  let w0 := setConfig (config.withMakerFeeRate (Fin 0) config.defaultConfig)
              initialWorld in
  let w2 := snd (addPosition now (VStr "1") (VStr "200")
                   (snd (addPosition now (VStr "1") (VStr "100") w0))) in
  exists r,
    calculateAveragePrice w2 = (Return r, w2)
    /\ (averagePrice r ≡ Fin 150)%num
    /\ (totalQuantity r ≡ Fin 2)%num
    /\ (totalCost r ≡ Fin 300)%num.
Proof.
  intros now w0 w2.
  destruct (@calculateAveragePrice_spec now w2 eq_refl) as (_ & H & _).
  eexists. split; [apply H; discriminate|].
  repeat split; vm_compute; reflexivity.
Defined.

Section Recompute.

Variable now : nat -> Z.

(** The loop of the listener: every well-formed record is made again,
    every other one costs a line on the console. *)
Lemma recompute_loop (old : list FillRecord) (w : World) :
  forEach
    (fun pos =>
       tryCatch
         (addPosition now (VNum (Fill.quantity pos)) (VNum (Fill.price pos)) ;;
          ret tt)
         (fun _ => consoleError "Error recalculating position:"))
    old w
  = (Return tt,
     {| config := config w;
        positions :=
          (positions w
           ++ recreate now (makerFeeRate (config w)) (dateCalls w) old)%list;
        dateCalls := dateCalls w + List.length (filter wellFormed old);
        console :=
          (console w
           ++ repeat (ConsoleError "Error recalculating position:")
                (List.length (filter (fun p => negb (wellFormed p)) old)))%list
     |}).
Proof.
  revert w. induction old as [|p old IH]; intros w.
  - simpl. unfold ret. destruct w; simpl.
    now rewrite !app_nil_r, Nat.add_0_r.
  - cbn [forEach]. unfold bind at 1. unfold tryCatch, bind at 1.
    cbn [recreate filter].
    destruct (wellFormed p) eqn:Hp.
    + unfold wellFormed in Hp. apply andb_true_iff in Hp.
      destruct Hp as [Hq Hpr].
      rewrite (addPosition_accepts now _ _ w Hq Hpr). cbv zeta.
      unfold ret at 1. rewrite IH. cbn [config positions dateCalls console].
      cbn [negb List.length parseFloat].
      now rewrite <- app_assoc, Nat.add_succ_r.
    + unfold wellFormed in Hp.
      destruct (addPosition_rejects now _ _ w Hp) as (m & E). rewrite E.
      unfold consoleError, modify. rewrite IH.
      cbn [config positions dateCalls console logEntry negb List.length].
      now rewrite <- app_assoc.
Qed.

Lemma onConfigChange_makerFeeRate (v : ConfigValue) (w : World) :
  onConfigChange now "makerFeeRate" v w
  = (Return tt,
     {| config := config w;
        positions := recreate now (makerFeeRate (config w)) (dateCalls w)
                       (positions w);
        dateCalls := dateCalls w
                     + List.length (filter wellFormed (positions w));
        console :=
          (console w
           ++ repeat (ConsoleError "Error recalculating position:")
                (List.length
                   (filter (fun p => negb (wellFormed p)) (positions w))))%list
     |}).
Proof.
  unfold onConfigChange. cbn [String.eqb Ascii.eqb Bool.eqb].
  unfold bind, gets, modify. rewrite recompute_loop. reflexivity.
Qed.

Lemma recreate_quantity (rate : number) (n : nat) (old : list FillRecord) :
  map Fill.quantity (recreate now rate n old)
  = map Fill.quantity (filter wellFormed old).
Proof.
  revert n. induction old as [|p old IH]; intros n; [reflexivity|].
  simpl. destruct (wellFormed p); simpl; now rewrite IH.
Qed.

Lemma recreate_price (rate : number) (n : nat) (old : list FillRecord) :
  map Fill.price (recreate now rate n old)
  = map Fill.price (filter wellFormed old).
Proof.
  revert n. induction old as [|p old IH]; intros n; [reflexivity|].
  simpl. destruct (wellFormed p); simpl; now rewrite IH.
Qed.

Lemma recreate_derived (rate : number) (n : nat) (old : list FillRecord) :
  Forall (derivedAt rate) (recreate now rate n old).
Proof.
  revert n. induction old as [|p old IH]; intros n; [constructor|].
  simpl. destruct (wellFormed p); [|apply IH].
  constructor; [|apply IH]. repeat split.
Qed.

Lemma recreate_wellFormed (rate : number) (n : nat) (old : list FillRecord) :
  forallb wellFormed (recreate now rate n old) = true.
Proof.
  revert n. induction old as [|p old IH]; intros n; [reflexivity|].
  simpl. destruct (wellFormed p) eqn:Hp; [|apply IH].
  simpl. rewrite IH, andb_true_r. exact Hp.
Qed.

Lemma filter_all (ps : list FillRecord) :
  forallb wellFormed ps = true ->
  filter wellFormed ps = ps
  /\ filter (fun p => negb (wellFormed p)) ps = [].
Proof.
  induction ps as [|p ps IH]; intros H; [split; reflexivity|].
  simpl in *. apply andb_true_iff in H. destruct H as [Hp Hps].
  rewrite Hp. destruct (IH Hps) as [E1 E2]. simpl. now rewrite E1, E2.
Qed.

End Recompute.

(** ** The configuration *)

(** [addConfigListener] puts a listener at the end of the list: after a
    sequence of registrations the list holds the listeners there were,
    followed by the new ones in the order of the calls. *)
Lemma registerAll_listeners (ls : list Listener) (w : World) :
  listeners (config (registerAll ls w)) = (listeners (config w) ++ ls)%list.
Proof.
  revert w. induction ls as [|l ls IH]; intros w.
  - simpl. now rewrite app_nil_r.
  - cbn [registerAll fold_left]. fold (registerAll ls).
    rewrite IH. cbn. now rewrite <- app_assoc.
Qed.

Section Notification.

Variable listenerBody : Listener -> string -> ConfigValue -> W unit.

(** No listener changes the list of listeners while it is notified (the
    design assumes that a listener does not change the configuration). *)
Hypothesis keeps_listeners :
  forall l key v w,
    listeners (config (snd (listenerBody l key v w))) = listeners (config w).

Lemma afterListener_listeners (key : string) (v : ConfigValue) (w : World)
  (l : Listener) :
  listeners (config (afterListener listenerBody key v w l))
  = listeners (config w).
Proof.
  unfold afterListener. pose proof (keeps_listeners l key v w) as H.
  destruct (listenerBody l key v w) as [[a|m] w']; exact H.
Qed.

Lemma notifyFrom_all (key : string) (v : ConfigValue) (rest : list Listener) :
  forall (pre : list Listener) (s : State),
    listeners (config (world s)) = (pre ++ rest)%list ->
    config.notifyFrom listenerBody (List.length rest) (List.length pre) key v s
    = (Return tt,
       {| world := fold_left (afterListener listenerBody key v) rest (world s);
          calls := (calls s ++ map (fun l => (l, (key, v))) rest)%list |}).
Proof.
  induction rest as [|l rest IH]; intros pre s Hs.
  - simpl. unfold ret. destruct s; simpl. now rewrite app_nil_r.
  - cbn [List.length config.notifyFrom]. unfold bind at 1. unfold gets at 1.
    rewrite Hs, nth_error_app2, Nat.sub_diag by apply Nat.le_refl.
    cbn [nth_error]. unfold bind at 1, tryCatch, config.invoke, lift.
    cbn [world calls].
    assert (Hpre : S (List.length pre) = List.length (pre ++ [l])%list)
      by (rewrite length_app; simpl; lia).
    pose proof (afterListener_listeners key v (world s) l) as K.
    assert (HA : afterListener listenerBody key v (world s) l
                 = match listenerBody l key v (world s) with
                   | (Return _, w') => w'
                   | (Throw _, w') =>
                       logEntry (ConsoleError "Error in config listener:") w'
                   end) by reflexivity.
    cbn [fold_left map]. 
    destruct (listenerBody l key v (world s)) as [[a|m] w'];
      [|unfold consoleError, modify; cbn [world calls]];
      rewrite Hpre, IH; cbn [world calls];
      rewrite <- ?HA, <- ?app_assoc; try reflexivity;
      rewrite ?K, ?Hs, <- ?app_assoc; reflexivity.
Qed.

Lemma notifyListeners_all (key : string) (v : ConfigValue) (s : State) :
  config.notifyListeners listenerBody key v s
  = (Return tt,
     {| world := fold_left (afterListener listenerBody key v)
                   (listeners (config (world s))) (world s);
        calls := (calls s
                  ++ map (fun l => (l, (key, v)))
                       (listeners (config (world s))))%list |}).
Proof.
  unfold config.notifyListeners, bind, gets.
  exact (@notifyFrom_all key v (listeners (config (world s))) [] s eq_refl).
Qed.


Lemma runSetter_rejected (call : SetterCall) (s : State) :
  succeeds call = false ->
  runSetter listenerBody call s
  = (Return tt,
     {| world := logEntry (ConsoleError (complaint call)) (world s);
        calls := calls s |}).
Proof.
  destruct call as [d|rate|rate|]; cbn [succeeds runSetter complaint];
    try discriminate; intros H.
  - unfold config.setDirection.
    apply orb_false_iff in H. destruct H as [H1 H2]. now rewrite H1, H2.
  - unfold config.setMakerFeeRate, acceptableRate in *.
    rewrite <- negb_orb, negb_false_iff in H. now rewrite H.
  - unfold config.setTakerFeeRate, acceptableRate in *.
    rewrite <- negb_orb, negb_false_iff in H. now rewrite H.
Qed.

Lemma runSetter_accepted (call : SetterCall) (s : State) :
  succeeds call = true ->
  runSetter listenerBody call s
  = config.notifyListeners listenerBody (fst (announced call))
      (snd (announced call))
      {| world := setConfig (stored call (config (world s))) (world s);
         calls := calls s |}.
Proof.
  destruct call as [d|rate|rate|]; cbn [succeeds runSetter announced fst snd];
    intros H.
  - unfold config.setDirection. cbn [stored].
    destruct (config.isDirection d LONG) eqn:E1; cbn [negb andb].
    + reflexivity.
    + simpl in H. rewrite H. reflexivity.
  - unfold config.setMakerFeeRate, acceptableRate in *.
    rewrite <- negb_orb, negb_true_iff in H. rewrite H. reflexivity.
  - unfold config.setTakerFeeRate, acceptableRate in *.
    rewrite <- negb_orb, negb_true_iff in H. rewrite H. reflexivity.
  - reflexivity.
Qed.

(** C7, as amended: provided no listener changes the list of listeners
    while the listeners are notified, a successful setter returns normally
    after every registered listener was called, in the order of
    registration, with the changed key and the new value; a listener that
    raises is caught, costs a line on the console, and stops neither the
    setter nor the listeners after it.  The order of registration is the
    order of the calls of [addConfigListener]: whatever listeners the
    list holds, the listeners registered after them are called after
    them, in the order in which they were registered. *)
Theorem setter_notifies_all_listeners
  (call : SetterCall) (registered : list Listener) (s : State) :
  succeeds call = true ->
  let s1 := {| world := registerAll registered (world s); calls := calls s |} in
  let ls := (listeners (config (world s)) ++ registered)%list in
  let key := fst (announced call) in
  let v := snd (announced call) in
  listeners (config (world s1)) = ls
  /\ runSetter listenerBody call s1
     = (Return tt,
        {| world :=
             fold_left (afterListener listenerBody key v) ls
               (setConfig (stored call (config (world s1))) (world s1));
           calls := (calls s ++ map (fun l => (l, (key, v))) ls)%list |}).
Proof.
  intros H s1 ls key v.
  assert (El : listeners (config (world s1)) = ls)
    by (apply registerAll_listeners).
  split; [exact El|].
  rewrite (runSetter_accepted _ _ H), notifyListeners_all.
  cbn [world calls config setConfig].
  assert (E : listeners (stored call (config (world s1))) = ls)
    by (rewrite <- El; destruct call; reflexivity).
  now rewrite E.
Qed.

End Notification.

Lemma sampleListeners_keep_config (l : Listener) (key : string)
  (v : ConfigValue) (w : World) :
  config (snd (sampleListeners l key v w)) = config w.
Proof.
  destruct l as [|[|[|l]]]; try reflexivity.
  cbn [sampleListeners].
  destruct (String.eqb key "makerFeeRate") eqn:E.
  - apply String.eqb_eq in E. subst key.
    now rewrite onConfigChange_makerFeeRate.
  - unfold onConfigChange. now rewrite E.
Qed.

Lemma setter_notifies_all_listeners_witness :
  let s := {| world := registerAll [0; 1; 3]%nat initialWorld;
              calls := [] |} in
  let s' := snd (runSetter sampleListeners (SetDirection (VStr "short")) s) in
  fst (runSetter sampleListeners (SetDirection (VStr "short")) s) = Return tt
  /\ calls s'
     = [(0%nat, ("direction", OfDirection SHORT));
        (1%nat, ("direction", OfDirection SHORT));
        (3%nat, ("direction", OfDirection SHORT))]
  /\ console (world s')
     = [ConsoleWarn "direction";
        ConsoleError "Error in config listener:";
        ConsoleWarn "direction"]
  /\ direction (config (world s')) = SHORT.
Proof.
  intros s s'. subst s'.
  destruct (@setter_notifies_all_listeners sampleListeners
              (fun l key v w =>
                 f_equal listeners (sampleListeners_keep_config l key v w))
              (SetDirection (VStr "short")) [0; 1; 3]%nat
              {| world := initialWorld; calls := [] |} eq_refl) as [_ E].
  cbv zeta in E. cbn [world calls] in E. subst s. rewrite E.
  repeat split.
Defined.

Section Setters.

Variable listenerBody : Listener -> string -> ConfigValue -> W unit.

(** No listener changes the configuration while it is notified. *)
Hypothesis keeps_config :
  forall l key v w, config (snd (listenerBody l key v w)) = config w.

Lemma afterListener_config (key : string) (v : ConfigValue) (w : World)
  (l : Listener) :
  config (afterListener listenerBody key v w l) = config w.
Proof.
  unfold afterListener. pose proof (keeps_config l key v w) as H.
  destruct (listenerBody l key v w) as [[a|m] w']; exact H.
Qed.

Lemma fold_afterListener_config (key : string) (v : ConfigValue)
  (ls : list Listener) (w : World) :
  config (fold_left (afterListener listenerBody key v) ls w) = config w.
Proof.
  revert w. induction ls as [|l ls IH]; intros w; [reflexivity|].
  simpl. now rewrite IH, afterListener_config.
Qed.

Lemma runSetter_stores (call : SetterCall) (s : State) :
  succeeds call = true ->
  fst (runSetter listenerBody call s) = Return tt
  /\ config (world (snd (runSetter listenerBody call s)))
     = stored call (config (world s)).
Proof.
  intros H. rewrite (runSetter_accepted listenerBody _ _ H).
  rewrite notifyListeners_all
    by (intros; now rewrite keeps_config).
  split; [reflexivity|]. cbn [snd world]. now rewrite fold_afterListener_config.
Qed.

Lemma acceptableRate_stored (rate : value) :
  acceptableRate rate = true ->
  (parseFloat rate / Fin 100 >=? Fin 0)%num = true.
Proof.
  unfold acceptableRate. rewrite andb_true_iff, !negb_true_iff.
  intros [Hn Hl]. destruct (parseFloat rate) as [q| | |]; try discriminate.
  - simpl in *. apply Qle_bool_iff. apply Qltb_ge in Hl.
    apply Qle_shift_div_l; lra.
  - reflexivity.
Qed.

(** C6: a setter never raises.  [setDirection] with a value that is
    neither 'long' nor 'short', and [setMakerFeeRate] or [setTakerFeeRate]
    with a negative or non-numeric rate, leave the configuration as it
    was, write one line to the console and call no listener.  With an
    accepted argument the stored rate is the argument divided by 100.
    Fee rates that are not negative stay so through every call of a
    setter. *)
Theorem setters_validate (call : SetterCall) (s : State) :
  (succeeds call = false ->
   runSetter listenerBody call s
   = (Return tt,
      {| world := logEntry (ConsoleError (complaint call)) (world s);
         calls := calls s |}))
  /\ (succeeds call = true ->
      fst (runSetter listenerBody call s) = Return tt
      /\ config (world (snd (runSetter listenerBody call s)))
         = stored call (config (world s)))
  /\ (forall rate,
        acceptableRate rate = true ->
        makerFeeRate
          (config (world (snd (runSetter listenerBody (SetMakerFeeRate rate) s))))
        = (parseFloat rate / Fin 100)%num
        /\ takerFeeRate
             (config (world (snd (runSetter listenerBody
                                    (SetTakerFeeRate rate) s))))
           = (parseFloat rate / Fin 100)%num)
  /\ (ratesNonNegative (config (world s)) = true ->
      ratesNonNegative (config (world (snd (runSetter listenerBody call s))))
      = true).
Proof.
  split; [apply runSetter_rejected|].
  split; [apply runSetter_stores|].
  split.
  - intros rate Hr. split.
    + now destruct (@runSetter_stores (SetMakerFeeRate rate) s Hr) as [_ ->].
    + now destruct (@runSetter_stores (SetTakerFeeRate rate) s Hr) as [_ ->].
  - intros Hinv. destruct (succeeds call) eqn:Hs.
    + destruct (runSetter_stores _ s Hs) as [_ ->].
      unfold ratesNonNegative in *. apply andb_true_iff in Hinv.
      destruct Hinv as [Hm Ht].
      destruct call as [d|rate|rate|]; cbn [stored succeeds] in *;
        cbn [makerFeeRate takerFeeRate config.withDirection
             config.withMakerFeeRate config.withTakerFeeRate];
        rewrite ?Hm, ?Ht, ?(acceptableRate_stored _ Hs); reflexivity.
    + rewrite (runSetter_rejected listenerBody _ s Hs). exact Hinv.
Qed.

End Setters.

Lemma setters_validate_witness :
  let s := {| world :=
                setConfig (config.withListeners [0; 1; 3]%nat
                             config.defaultConfig) initialWorld;
              calls := [] |} in
  (runSetter sampleListeners (SetMakerFeeRate (VStr "-0.02")) s
   = (Return tt,
      {| world := logEntry (ConsoleError "Invalid maker fee rate:") (world s);
         calls := [] |}))
  /\ (makerFeeRate
        (config (world (snd (runSetter sampleListeners
                               (SetMakerFeeRate (VStr "0.03")) s))))
      ≡ Fin (3 # 10000))%num.
Proof.
  intros s.
  destruct (@setters_validate sampleListeners sampleListeners_keep_config
              (SetMakerFeeRate (VStr "-0.02")) s) as (H1 & _ & H3 & _).
  split; [exact (H1 eq_refl)|].
  destruct (H3 (VStr "0.03") eq_refl) as [-> _]. vm_compute. reflexivity.
Defined.

(** C7, as stated, fails: a listener that removes itself when it is
    called shortens the array under the loop of [notifyListeners].  With
    the listeners 0 and 1 registered in this order and listener 0 removing
    itself, [setDirection('short')] succeeds and returns, and listener 1,
    which was registered when the setter was called, is never called. *)
Lemma self_removing_listener_hides_next :
  let s := {| world := registerAll [0; 1]%nat initialWorld; calls := [] |} in
  let s' := snd (config.setDirection selfRemovingListener (VStr "short") s) in
  listeners (config (world s)) = [0; 1]%nat
  /\ succeeds (SetDirection (VStr "short")) = true
  /\ fst (config.setDirection selfRemovingListener (VStr "short") s)
     = Return tt
  /\ direction (config (world s')) = SHORT
  /\ calls s' = [(0%nat, ("direction", OfDirection SHORT))]
  /\ ~ In 1%nat (map fst (calls s')).
Proof.
  repeat split. intros [C|[]]. discriminate C.
Qed.

(** ** The invariant of the tracker *)

(** Every operation on the records keeps them well formed, so that the
    records of the tracker are well formed at all times. *)
Lemma tracker_keeps_wellFormed (now : nat -> Z) (call : TrackerCall)
  (w : World) :
  forallb wellFormed (positions w) = true ->
  forallb wellFormed (positions (snd (runTracker now call w))) = true.
Proof.
  intros H. destruct call as [quantity price|id| |key v]; cbn [runTracker].
  - destruct (usable quantity && usable price) eqn:U.
    + apply andb_true_iff in U. destruct U as [Uq Up].
      unfold bind. rewrite (addPosition_accepts now _ _ w Uq Up).
      cbn [snd ret positions]. rewrite forallb_app, H. cbn [forallb].
      unfold wellFormed. cbn [Fill.quantity Fill.price fillRecord].
      now rewrite (usable_parsed _ Uq), (usable_parsed _ Up).
    + destruct (addPosition_rejects now _ _ w U) as (m & E).
      unfold bind. now rewrite E.
  - unfold removePosition, modify. cbn [snd setPositions positions].
    rewrite forallb_forall in *. intros p Hp. apply filter_In in Hp.
    apply H. tauto.
  - reflexivity.
  - destruct (String.eqb key "makerFeeRate") eqn:E.
    + apply String.eqb_eq in E. subst key.
      rewrite onConfigChange_makerFeeRate. apply recreate_wellFormed.
    + unfold onConfigChange. now rewrite E.
Qed.

(** ** The tracker and the maker fee rate *)

(** C5: when [setMakerFeeRate] stores a new rate and notifies the listener
    of the average price tracker, every record is replaced by one made
    again from its quantity and price: the quantities and prices of the
    records that pass the validation are unchanged and in the same order,
    the fee, the actual cost and the total cost are those of the new rate;
    a record that fails the validation is dropped, costs one line on the
    console and does not stop the loop.  Records made by [addPosition] all
    pass. *)
Theorem makerFeeRate_change_recomputes
  (now : nat -> Z) (listenerBody : Listener -> string -> ConfigValue -> W unit)
  (l : Listener) (rate : value) (s : State) :
  listeners (config (world s)) = [l] ->
  (forall key v, listenerBody l key v = onConfigChange now key v) ->
  acceptableRate rate = true ->
  let newRate := (parseFloat rate / Fin 100)%num in
  let old := positions (world s) in
  let s' := snd (config.setMakerFeeRate listenerBody rate s) in
  fst (config.setMakerFeeRate listenerBody rate s) = Return tt
  /\ makerFeeRate (config (world s')) = newRate
  /\ positions (world s') = recreate now newRate (dateCalls (world s)) old
  /\ map Fill.quantity (positions (world s'))
     = map Fill.quantity (filter wellFormed old)
  /\ map Fill.price (positions (world s'))
     = map Fill.price (filter wellFormed old)
  /\ Forall (derivedAt newRate) (positions (world s'))
  /\ console (world s')
     = (console (world s)
        ++ repeat (ConsoleError "Error recalculating position:")
             (List.length (filter (fun p => negb (wellFormed p)) old)))%list
  /\ (forallb wellFormed old = true ->
      map Fill.quantity (positions (world s')) = map Fill.quantity old
      /\ map Fill.price (positions (world s')) = map Fill.price old
      /\ console (world s') = console (world s)).
Proof.
  intros Hl Hb Hr newRate old s'.
  pose proof (runSetter_accepted listenerBody (SetMakerFeeRate rate) s Hr) as E.
  cbn [runSetter announced fst snd stored] in E.
  assert (Es : config.setMakerFeeRate listenerBody rate s
               = (Return tt,
                  {| world :=
                       {| config := config.withMakerFeeRate newRate
                                      (config (world s));
                          positions :=
                            recreate now newRate (dateCalls (world s)) old;
                          dateCalls :=
                            dateCalls (world s)
                            + List.length (filter wellFormed old);
                          console :=
                            (console (world s)
                             ++ repeat
                                  (ConsoleError "Error recalculating position:")
                                  (List.length
                                     (filter (fun p => negb (wellFormed p))
                                        old)))%list |};
                     calls := (calls s
                               ++ [(l, ("makerFeeRate", OfRate newRate))])%list
                  |})).
  { rewrite E. unfold config.notifyListeners, bind at 1, gets at 1.
    cbn [world config setConfig config.withMakerFeeRate listeners].
    rewrite Hl. cbn [List.length config.notifyFrom].
    unfold bind at 1, gets at 1.
    cbn [world config setConfig config.withMakerFeeRate listeners].
    rewrite Hl. cbn [nth_error].
    unfold bind, tryCatch, config.invoke, lift. cbn [world calls].
    rewrite Hb, onConfigChange_makerFeeRate. reflexivity. }
  subst s'. rewrite Es. cbn [fst snd world config positions console].
  split; [reflexivity|]. split; [reflexivity|]. split; [reflexivity|].
  split; [apply recreate_quantity|]. split; [apply recreate_price|].
  split; [apply recreate_derived|]. split; [reflexivity|].
  intros Hwf. destruct (filter_all _ Hwf) as [F1 F2].
  rewrite recreate_quantity, recreate_price, F1, F2. cbn [List.length repeat].
  now rewrite app_nil_r.
Qed.

Lemma makerFeeRate_change_recomputes_witness :
  let now := fun _ : nat => 1700000000000%Z in
  let w0 := setConfig (config.withListeners [2%nat] config.defaultConfig)
              initialWorld in
  let w2 := snd (addPosition now (VStr "1") (VStr "200")
                   (snd (addPosition now (VStr "1") (VStr "100") w0))) in
  let s' := snd (config.setMakerFeeRate sampleListeners (VStr "1")
                   {| world := w2; calls := [] |}) in
  map Fill.price (positions (world s')) = map Fill.price (positions w2)
  /\ Forall (derivedAt (parseFloat (VStr "1") / Fin 100)%num)
       (positions (world s'))
  /\ Forall2 (fun x y => (x ≡ y)%num)
       (map Fill.totalCost (positions (world s'))) [Fin 101; Fin 202].
Proof.
  intros now w0 w2 s'.
  destruct (@makerFeeRate_change_recomputes now sampleListeners 2%nat
              (VStr "1") {| world := w2; calls := [] |} eq_refl
              (fun key v => eq_refl) eq_refl)
    as (_ & _ & _ & _ & _ & Hd & _ & Hw).
  destruct (Hw eq_refl) as (_ & Hp & _).
  split; [exact Hp|]. split; [exact Hd|].
  vm_compute. repeat constructor.
Defined.

(** ** Identifiers of the records *)

(** C9: two calls of [addPosition] within one millisecond give both
    records the same identifier, and [removePosition] with that identifier
    then removes both; and after two records were added a second apart, a
    change of the maker fee rate makes both again within one millisecond
    and leaves them with one identifier. *)
Theorem addPosition_identifiers_collide :
  (let now := fun _ : nat => 1700000000000%Z in
   let w2 := snd (addPosition now (VStr "2") (VStr "200")
                    (snd (addPosition now (VStr "1") (VStr "100")
                            initialWorld))) in
   map Fill.id (positions w2) = [1700000000000; 1700000000000]%Z
   /\ List.length (positions w2) = 2%nat
   /\ positions (snd (removePosition 1700000000000 w2)) = [])
  /\ (let now := fun n : nat =>
                   if (n <? 2)%nat then (1700000000000 + 1000 * Z.of_nat n)%Z
                   else 1700000005000%Z in
      let w0 := setConfig (config.withListeners [0%nat] config.defaultConfig)
                  initialWorld in
      let w2 := snd (addPosition now (VStr "2") (VStr "200")
                       (snd (addPosition now (VStr "1") (VStr "100") w0))) in
      let s' := snd (config.setMakerFeeRate (fun _ => onConfigChange now)
                       (VStr "0.03") {| world := w2; calls := [] |}) in
      map Fill.id (positions w2) = [1700000000000; 1700000001000]%Z
      /\ map Fill.id (positions (world s'))
         = [1700000005000; 1700000005000]%Z).
Proof.
  split; repeat split; vm_compute; reflexivity.
Qed.

(** * Further properties of the code

    What this part states of the numbers the calculators return is either
    an equation read off the control flow or a weak inequality, which
    holds as well when every operation rounds its exact result to the
    nearest double, since rounding to nearest is monotone. *)

Unset Implicit Arguments.

(** ** validator.js *)

Lemma isEmpty_not_valid (v : value) :
  isEmpty v = true -> isValidNumber v = false.
Proof. destruct v as [| |n|[|c s]]; try discriminate; reflexivity. Qed.

(** The loop of [validateRequiredFields] stops at the first entry whose
    value is not a valid number. *)
Lemma validateRequiredFields_scan (entries : list (string * value)) :
  isValid (validateRequiredFields entries)
  = forallb (fun f => isValidNumber (snd f)) entries
  /\ (isValid (validateRequiredFields entries) = true ->
      message (validateRequiredFields entries) = "")
  /\ (isValid (validateRequiredFields entries) = false ->
      exists before fieldName v rest,
        entries = (before ++ (fieldName, v) :: rest)%list
        /\ forallb (fun f => isValidNumber (snd f)) before = true
        /\ isValidNumber v = false
        /\ message (validateRequiredFields entries)
           = if isEmpty v then "请输入" ++ fieldName
             else fieldName ++ "必须是有效数字").
Proof.
  induction entries as [|[name v] fields (IH1 & IH2 & IH3)].
  - repeat split; try reflexivity. discriminate.
  - cbn [validateRequiredFields forallb snd].
    destruct (isEmpty v) eqn:Ev.
    + rewrite (isEmpty_not_valid _ Ev). repeat split; try discriminate.
      intros _. exists [], name, v, fields.
      rewrite Ev, (isEmpty_not_valid _ Ev). repeat split.
    + destruct (isValidNumber v) eqn:Vv; cbn [negb andb].
      * split; [exact IH1|]. split; [exact IH2|].
        intros H. destruct (IH3 H) as (before & n & x & rest & E & Hb & Hx & Hm).
        exists ((name, v) :: before), n, x, rest.
        subst fields. cbn [forallb snd]. rewrite Vv, Hb.
        repeat split; auto.
      * repeat split; try discriminate.
        intros _. exists [], name, v, fields. rewrite Ev, Vv. repeat split.
Qed.

Lemma forallb_insertByIndex (P : string * value -> bool)
  (e : Z * (string * value)) (l : list (Z * (string * value))) :
  forallb P (map snd (Object.insertByIndex e l))
  = P (snd e) && forallb P (map snd l).
Proof.
  induction l as [|x l IH]; [reflexivity|].
  cbn [Object.insertByIndex]. destruct (fst e <=? fst x)%Z; [reflexivity|].
  cbn [map forallb]. rewrite IH.
  destruct (P (snd e)), (P (snd x)); reflexivity.
Qed.

(** [Object.entries] lists every property once: a test holds of all the
    entries exactly when it holds of all the properties. *)
Lemma forallb_entries (P : string * value -> bool)
  (fields : list (string * value)) :
  forallb P (Object.entries fields) = forallb P fields.
Proof.
  unfold Object.entries, Object.ascending. rewrite forallb_app.
  induction fields as [|f fields IH]; [reflexivity|].
  cbn [Object.indexed Object.named filter forallb].
  unfold Object.isArrayIndex.
  destruct (Object.arrayIndex (fst f)) as [i|]; cbn [negb].
  - cbn [fold_right]. rewrite forallb_insertByIndex. cbn [snd].
    fold (Object.named fields). rewrite <- IH. now rewrite andb_assoc.
  - cbn [forallb]. fold (Object.named fields). rewrite <- IH.
    destruct (P f); [reflexivity|]. cbn [andb]. now rewrite andb_false_r.
Qed.

(** An object none of whose keys is an array index has its entries in the
    order in which the properties were created. *)
Lemma entries_named (fields : list (string * value)) :
  forallb (fun f => negb (Object.isArrayIndex (fst f))) fields = true ->
  Object.entries fields = fields.
Proof.
  unfold Object.entries, Object.ascending, Object.named.
  induction fields as [|f fields IH]; [reflexivity|].
  cbn [forallb Object.indexed filter]. intros H.
  apply andb_true_iff in H. destruct H as [Hf Hr].
  rewrite Hf. unfold Object.isArrayIndex in Hf.
  destruct (Object.arrayIndex (fst f)); [discriminate|].
  specialize (IH Hr).
  destruct (map snd (fold_right Object.insertByIndex [] (Object.indexed fields)))
    as [|x l] eqn:E.
  - cbn [app] in *. now rewrite IH.
  - exfalso. clear IH Hf.
    assert (Hi : Object.indexed fields = []).
    { clear E. induction fields as [|g fields IHf]; [reflexivity|].
      cbn [forallb] in Hr. apply andb_true_iff in Hr. destruct Hr as [Hg Hr].
      cbn [Object.indexed]. unfold Object.isArrayIndex in Hg.
      destruct (Object.arrayIndex (fst g)); [discriminate|]. now apply IHf. }
    rewrite Hi in E. discriminate.
Qed.

Lemma indexed_arrayIndex (fields : list (string * value)) :
  Forall (fun e => Object.arrayIndex (fst (snd e)) = Some (fst e))
    (Object.indexed fields).
Proof.
  induction fields as [|f fields IH]; [constructor|].
  cbn [Object.indexed].
  destruct (Object.arrayIndex (fst f)) as [i|] eqn:E; [|exact IH].
  constructor; [exact E|exact IH].
Qed.

Lemma insertByIndex_Forall (Q : Z * (string * value) -> Prop)
  (e : Z * (string * value)) (l : list (Z * (string * value))) :
  Q e -> Forall Q l -> Forall Q (Object.insertByIndex e l).
Proof.
  intros He Hl. induction Hl as [|x l Hx Hl IH]; [repeat constructor; exact He|].
  cbn [Object.insertByIndex]. destruct (fst e <=? fst x)%Z;
    repeat constructor; assumption.
Qed.

Lemma ascending_Forall (Q : Z * (string * value) -> Prop)
  (l : list (Z * (string * value))) :
  Forall Q l -> Forall Q (Object.ascending l).
Proof.
  intros H. induction H as [|x l Hx Hl IH]; [constructor|].
  cbn [Object.ascending fold_right]. now apply insertByIndex_Forall.
Qed.

Lemma insertByIndex_ascends (e : Z * (string * value))
  (l : list (Z * (string * value))) :
  ascends (map fst l) -> ascends (map fst (Object.insertByIndex e l)).
Proof.
  induction l as [|x l IH]; intros H; [exact I|].
  cbn [Object.insertByIndex]. destruct (fst e <=? fst x)%Z eqn:C.
  - cbn [map ascends]. split; [now apply Z.leb_le|exact H].
  - apply Z.leb_gt in C. destruct l as [|y l].
    + cbn. split; [lia|exact I].
    + cbn [map ascends] in H. destruct H as [Hxy Hl].
      specialize (IH Hl). cbn [Object.insertByIndex] in *.
      destruct (fst e <=? fst y)%Z; cbn [map ascends] in *;
        (split; [lia|exact IH]).
Qed.

Lemma ascending_ascends (l : list (Z * (string * value))) :
  ascends (map fst (Object.ascending l)).
Proof.
  induction l as [|x l IH]; [exact I|].
  cbn [Object.ascending fold_right]. now apply insertByIndex_ascends.
Qed.

(** [validateRequiredFields] accepts exactly the objects all of whose
    values are valid numbers, with an empty message; otherwise its message
    is about the first entry that [Object.entries] lists whose value is not
    a valid number: a request to enter it when it is empty, a complaint
    that it is not a number otherwise.  [Object.entries] lists the
    properties whose key is an array index first, by ascending index, and
    the others after them in the order in which they were created, which
    is the order of all the entries when no key is an array index. *)
Theorem validateRequiredFields_first_invalid (fields : list (string * value)) :
  let entries := Object.entries fields in
  let result := validateRequiredFields entries in
  isValid result = forallb (fun f => isValidNumber (snd f)) fields
  /\ (isValid result = true -> message result = "")
  /\ (isValid result = false ->
      exists before fieldName v rest,
        entries = (before ++ (fieldName, v) :: rest)%list
        /\ forallb (fun f => isValidNumber (snd f)) before = true
        /\ isValidNumber v = false
        /\ message result
           = if isEmpty v then "请输入" ++ fieldName
             else fieldName ++ "必须是有效数字")
  /\ (exists byIndex,
        entries = (map snd byIndex ++ Object.named fields)%list
        /\ Forall (fun e => Object.arrayIndex (fst (snd e)) = Some (fst e))
             byIndex
        /\ ascends (map fst byIndex)
        /\ forallb (fun f => negb (Object.isArrayIndex (fst f)))
             (Object.named fields) = true)
  /\ (forallb (fun f => negb (Object.isArrayIndex (fst f))) fields = true ->
      entries = fields).
Proof.
  intros entries result.
  destruct (validateRequiredFields_scan entries) as (H1 & H2 & H3).
  split.
  - fold result in H1. rewrite H1. subst entries. apply forallb_entries.
  - split; [exact H2|]. split; [exact H3|].
    split; [|apply entries_named].
    exists (Object.ascending (Object.indexed fields)).
    split; [reflexivity|].
    split; [apply ascending_Forall, indexed_arrayIndex|].
    split; [apply ascending_ascends|].
    apply forallb_forall. intros f Hf. unfold Object.named in Hf.
    apply filter_In in Hf. tauto.
Qed.

(** A key that is an array index is validated before a key that is not,
    whichever was written first. *)
Example array_index_key_is_validated_first :
  message (validateRequiredFields
             (Object.entries [("b", VStr ""); ("1", VStr "x")]))
  = "1必须是有效数字"
  /\ message (validateRequiredFields
                (Object.entries [("b", VStr ""); ("01", VStr "x")]))
     = "请输入b".
Proof. split; reflexivity. Qed.

(** The objects that the calculators pass to [validateRequiredFields] have
    no key that is an array index: their entries are in the order of the
    object literal. *)
Lemma engine_objects_keep_their_order (a b c d : value) :
  Object.entries [("杠杆倍数", a); ("开仓价格", b); ("平仓价格", c);
                  ("开仓数量", d)]
  = [("杠杆倍数", a); ("开仓价格", b); ("平仓价格", c); ("开仓数量", d)]
  /\ Object.entries [("开仓价格", a); ("数量", b)]
     = [("开仓价格", a); ("数量", b)]
  /\ Object.entries [("计划亏损金额", a)] = [("计划亏损金额", a)]
  /\ Object.entries [("数量", a); ("价格", b)] = [("数量", a); ("价格", b)].
Proof. repeat split; apply entries_named; reflexivity. Qed.

(** [isExtremeValue] holds exactly of the valid numbers of magnitude above
    1e15: on a valid number the parsed value is finite, so that the tests
    for a non-finite or NaN parsed value never decide. *)
Theorem isExtremeValue_magnitude (v : value) :
  isExtremeValue v
  = isValidNumber v && (Num.abs (parseFloat v) >? extremeBound)%num.
Proof.
  unfold isExtremeValue. destruct (isValidNumber v) eqn:Vv; [|reflexivity].
  destruct (isValidNumber_finite _ Vv) as [q E]. rewrite E. reflexivity.
Qed.

(** [safeParseFloat] returns the parsed value of a valid number, which is
    finite, and the default for every other value; so it returns a finite
    number whenever the default is one. *)
Theorem safeParseFloat_finite (v : value) (defaultValue : number) :
  (isValidNumber v = true ->
   safeParseFloat v defaultValue = parseFloat v
   /\ isFinite (safeParseFloat v defaultValue) = true)
  /\ (isValidNumber v = false -> safeParseFloat v defaultValue = defaultValue)
  /\ (isFinite defaultValue = true ->
      isFinite (safeParseFloat v defaultValue) = true).
Proof.
  unfold safeParseFloat. destruct (isValidNumber v) eqn:Vv; cbn [negb].
  - destruct (isValidNumber_finite _ Vv) as [q E]. rewrite E. cbn [isFinite].
    repeat split; discriminate.
  - repeat split; try discriminate; auto.
Qed.

(** ** config.js: registering and removing listeners *)

Lemma indexOf_absent (l : Listener) (ls : list Listener) :
  ~ In l ls -> config.indexOf l ls = None.
Proof.
  induction ls as [|x ls IH]; intros H; [reflexivity|].
  simpl. destruct (Nat.eqb x l) eqn:E.
  - apply Nat.eqb_eq in E. subst. elim H. now left.
  - rewrite IH; [reflexivity|]. intros C. apply H. now right.
Qed.

Lemma indexOf_first (l : Listener) (before rest : list Listener) :
  ~ In l before ->
  config.indexOf l (before ++ l :: rest) = Some (List.length before)
  /\ config.splice1 (List.length before) (before ++ l :: rest)
     = (before ++ rest)%list.
Proof.
  induction before as [|x before IH]; intros H.
  - simpl. now rewrite Nat.eqb_refl.
  - simpl. destruct (Nat.eqb x l) eqn:E.
    + apply Nat.eqb_eq in E. subst. elim H. now left.
    + destruct IH as [I1 I2]; [intros C; apply H; now right|].
      now rewrite I1, I2.
Qed.

Lemma setConfig_same (w : World) : setConfig (config w) w = w.
Proof. now destruct w. Qed.

(** [removeConfigListener] takes the first registration of the listener
    out of the list and leaves the order of the others; a listener that is
    not registered, or a value that is no function, changes nothing. *)
Theorem removeConfigListener_first (l : Listener) (w : World) :
  (~ In l (listeners (config w)) ->
   config.removeConfigListener (config.Function l) w = (Return tt, w))
  /\ (forall v, config.removeConfigListener (config.NotFunction v) w
                = (Return tt, w))
  /\ (forall before rest,
        listeners (config w) = (before ++ l :: rest)%list ->
        ~ In l before ->
        config.removeConfigListener (config.Function l) w
        = (Return tt,
           setConfig (config.withListeners (before ++ rest) (config w)) w)).
Proof.
  split; [|split].
  - intros H. unfold config.removeConfigListener, bind, gets.
    now rewrite (@indexOf_absent l _ H).
  - reflexivity.
  - intros before rest E H. unfold config.removeConfigListener, bind, gets.
    rewrite E. destruct (@indexOf_first l before rest H) as [I1 I2].
    now rewrite I1, I2.
Qed.

(** Registering a listener and removing it again gives back the state
    when the listener was not registered before; when it was, its first
    registration is the one removed, so that the listener moves to the end
    of the calling order. *)
Theorem add_then_remove_listener (l : Listener) (w : World) :
  let w' := snd (config.removeConfigListener (config.Function l)
                   (snd (config.addConfigListener (config.Function l) w))) in
  (~ In l (listeners (config w)) -> w' = w)
  /\ (forall before rest,
        listeners (config w) = (before ++ l :: rest)%list ->
        ~ In l before ->
        listeners (config w') = (before ++ rest ++ [l])%list).
Proof.
  cbv zeta. unfold config.addConfigListener, config.update, modify.
  cbn [snd]. split.
  - intros H. unfold config.removeConfigListener, bind, gets.
    cbn [config setConfig config.withListeners listeners].
    rewrite <- (app_nil_r (listeners (config w) ++ [l])), <- app_assoc.
    destruct (@indexOf_first l (listeners (config w)) [] H) as [I1 I2].
    cbn [app] in *. rewrite I1. unfold config.update, modify. cbn [snd].
    rewrite I2, app_nil_r. destruct w as [[d m t ls] ps n c]. reflexivity.
  - intros before rest E H. unfold config.removeConfigListener, bind, gets.
    cbn [config setConfig config.withListeners listeners].
    rewrite E, <- app_assoc. cbn [app].
    destruct (@indexOf_first l before (rest ++ [l]) H) as [I1 I2].
    rewrite I1. unfold config.update, modify. cbn [snd].
    cbn [config setConfig config.withListeners listeners].
    now rewrite I2.
Qed.

(** ** profitCalculator.js *)

From Stdlib Require Import Qfield.

Lemma calculateProfit_accepts
  (leverage openPrice closePrice quantity : value) (w : World) :
  usable leverage = true -> usable openPrice = true ->
  usable closePrice = true -> usable quantity = true ->
  exists qo qc qq,
    parseFloat openPrice = Fin qo /\ parseFloat closePrice = Fin qc
    /\ parseFloat quantity = Fin qq /\ 0 < qo /\ 0 < qc /\ 0 < qq
    /\ calculateProfit leverage openPrice closePrice quantity w
       = (let openFee := (Fin qq * Fin qo * makerFeeRate (config w))%num in
          let closeFee := (Fin qq * Fin qc * takerFeeRate (config w))%num in
          let fees := (openFee + closeFee)%num in
          let profit :=
            match direction (config w) with
            | LONG => (Fin qq * (Fin qc - Fin qo) - fees)%num
            | SHORT => (Fin qq * (Fin qo - Fin qc) - fees)%num
            end in
          (Return {| profit := profit;
                     profitRate :=
                       if (Fin qq * Fin qo >? Fin 0)%num
                       then (profit / (Fin qq * Fin qo))%num else Fin 0;
                     totalFee := fees;
                     openFee := openFee;
                     closeFee := closeFee |}, w)).
Proof.
  intros Hl Ho Hc Hq.
  destruct (usable_parts _ Hl) as (Vl & El & Pl & Xl & _).
  destruct (usable_parts _ Ho) as (Vo & Eo & Po & Xo & (qo & Fo & No & Lo)).
  destruct (usable_parts _ Hc) as (Vc & Ec & Pc & Xc & (qc & Fc & Nc & Lc)).
  destruct (usable_parts _ Hq) as (Vq & Eq & Pq & Xq & (qq & Fq & Nq & Lq)).
  exists qo, qc, qq. repeat (split; [assumption|]).
  unfold calculateProfit. cbn [validateRequiredFields].
  rewrite El, Eo, Ec, Eq, Vl, Vo, Vc, Vq, Pl, Po, Pc, Pq, Xl, Xo, Xc, Xq.
  cbn [negb isValid orb].
  unfold calculateLongProfit, calculateShortProfit, calculateOpenFee,
    calculateCloseFee, config.isLong, config.getMakerFeeRate,
    config.getTakerFeeRate.
  run_eff. rewrite No, Nc, Nq.
  destruct (direction (config w)); reflexivity.
Qed.

Lemma calculateProfit_rejects
  (leverage openPrice closePrice quantity : value) (w : World) :
  usable leverage && usable openPrice && usable closePrice && usable quantity
  = false ->
  exists message,
    calculateProfit leverage openPrice closePrice quantity w
    = (Throw message, w).
Proof.
  unfold usable, calculateProfit. cbn [validateRequiredFields]. intros H.
  destruct (isEmpty leverage); [eexists; reflexivity|].
  destruct (isValidNumber leverage); [|eexists; reflexivity].
  destruct (isEmpty openPrice); [eexists; reflexivity|].
  destruct (isValidNumber openPrice); [|eexists; reflexivity].
  destruct (isEmpty closePrice); [eexists; reflexivity|].
  destruct (isValidNumber closePrice); [|eexists; reflexivity].
  destruct (isEmpty quantity); [eexists; reflexivity|].
  destruct (isValidNumber quantity); [|eexists; reflexivity].
  cbn [negb isValid andb] in *.
  destruct (isPositive leverage); [|eexists; reflexivity].
  destruct (isPositive openPrice); [|eexists; reflexivity].
  destruct (isPositive closePrice); [|eexists; reflexivity].
  destruct (isPositive quantity); [|eexists; reflexivity].
  cbn [negb andb] in *.
  destruct (isExtremeValue leverage), (isExtremeValue openPrice),
    (isExtremeValue closePrice), (isExtremeValue quantity);
    try discriminate; eexists; reflexivity.
Qed.

(** [calculateProfit] returns a result exactly when its four arguments are
    valid, positive and non-extreme, raises otherwise, and in neither case
    changes the state. *)
Theorem calculateProfit_returns_iff
  (leverage openPrice closePrice quantity : value) (w : World) :
  snd (calculateProfit leverage openPrice closePrice quantity w) = w
  /\ ((exists r,
         fst (calculateProfit leverage openPrice closePrice quantity w)
         = Return r)
      <-> usable leverage && usable openPrice && usable closePrice
          && usable quantity = true).
Proof.
  destruct (usable leverage && usable openPrice && usable closePrice
            && usable quantity) eqn:U.
  - rewrite !andb_true_iff in U. destruct U as [[[Ul Uo] Uc] Uq].
    destruct (calculateProfit_accepts _ _ _ _ w Ul Uo Uc Uq)
      as (qo & qc & qq & _ & _ & _ & _ & _ & _ & E).
    rewrite E. split; [reflexivity|]. split; [reflexivity|].
    intros _. eexists. reflexivity.
  - destruct (calculateProfit_rejects _ _ _ _ w U) as (m & E). rewrite E.
    split; [reflexivity|]. split; [|discriminate].
    intros (r & C). discriminate.
Qed.

(** The leverage is validated but not used: with any two acceptable
    leverages [calculateProfit] gives the same outcome, whatever the other
    arguments are. *)
Theorem calculateProfit_ignores_leverage
  (leverage1 leverage2 openPrice closePrice quantity : value) (w : World) :
  usable leverage1 = true -> usable leverage2 = true ->
  calculateProfit leverage1 openPrice closePrice quantity w
  = calculateProfit leverage2 openPrice closePrice quantity w.
Proof.
  intros H1 H2.
  destruct (usable_parts _ H1) as (V1 & E1 & P1 & X1 & _).
  destruct (usable_parts _ H2) as (V2 & E2 & P2 & X2 & _).
  unfold calculateProfit. cbn [validateRequiredFields].
  now rewrite E1, E2, V1, V2, P1, P2, X1, X2.
Qed.

Lemma calculateProfit_ignores_leverage_witness :
  calculateProfit (VStr "10") (VStr "100") (VStr "110") (VStr "2") initialWorld
  = calculateProfit (VNum (Fin 125)) (VStr "100") (VStr "110") (VStr "2")
      initialWorld.
Proof.
  exact (calculateProfit_ignores_leverage (VStr "10") (VNum (Fin 125))
           (VStr "100") (VStr "110") (VStr "2") initialWorld eq_refl eq_refl).
Defined.

(** The direction decides the sign of the price difference and nothing
    else: a long and a short position on the same arguments are accepted
    or rejected together, with the same message, and pay the same opening
    fee, closing fee and total fee. *)
Theorem fees_ignore_direction
  (leverage openPrice closePrice quantity : value) (w : World) :
  let long := setConfig (config.withDirection LONG (config w)) w in
  let short := setConfig (config.withDirection SHORT (config w)) w in
  match calculateProfit leverage openPrice closePrice quantity long,
        calculateProfit leverage openPrice closePrice quantity short with
  | (Return rl, wl), (Return rs, ws) =>
      wl = long /\ ws = short
      /\ openFee rl = openFee rs /\ closeFee rl = closeFee rs
      /\ totalFee rl = totalFee rs
  | (Throw ml, wl), (Throw ms, ws) => wl = long /\ ws = short /\ ml = ms
  | _, _ => False
  end.
Proof.
  intros long short.
  destruct (usable leverage && usable openPrice && usable closePrice
            && usable quantity) eqn:U.
  - rewrite !andb_true_iff in U. destruct U as [[[Ul Uo] Uc] Uq].
    destruct (calculateProfit_accepts _ _ _ _ long Ul Uo Uc Uq)
      as (qo & qc & qq & Fo & Fc & Fq & _ & _ & _ & El).
    destruct (calculateProfit_accepts _ _ _ _ short Ul Uo Uc Uq)
      as (qo' & qc' & qq' & Fo' & Fc' & Fq' & _ & _ & _ & Es).
    rewrite Fo in Fo'. rewrite Fc in Fc'. rewrite Fq in Fq'.
    injection Fo' as <-. injection Fc' as <-. injection Fq' as <-.
    rewrite El, Es. repeat split.
  - subst long short. revert U.
    unfold usable, calculateProfit. cbn [validateRequiredFields]. intros H.
    destruct (isEmpty leverage); [repeat split|].
    destruct (isValidNumber leverage); [|repeat split].
    destruct (isEmpty openPrice); [repeat split|].
    destruct (isValidNumber openPrice); [|repeat split].
    destruct (isEmpty closePrice); [repeat split|].
    destruct (isValidNumber closePrice); [|repeat split].
    destruct (isEmpty quantity); [repeat split|].
    destruct (isValidNumber quantity); [|repeat split].
    cbn [negb isValid andb] in *.
    destruct (isPositive leverage); [|repeat split].
    destruct (isPositive openPrice); [|repeat split].
    destruct (isPositive closePrice); [|repeat split].
    destruct (isPositive quantity); [|repeat split].
    cbn [negb andb] in *.
    destruct (isExtremeValue leverage), (isExtremeValue openPrice),
      (isExtremeValue closePrice), (isExtremeValue quantity);
      try discriminate; repeat split.
Qed.

Lemma nonNegative_rate (x : number) :
  (x >=? Fin 0)%num = true -> x = PInf \/ exists q, x = Fin q /\ 0 <= q.
Proof.
  destruct x as [q| | |]; simpl; try discriminate; auto.
  intros H. right. exists q. split; [reflexivity|]. now apply Qle_bool_iff.
Qed.

(** With fee rates that are finite and not negative, the total fee of a
    result is not negative, and a price that did not move in favour of the
    position gives no profit: a long position closed at or below its open
    price, and a short one closed at or above it, have a profit of at
    most 0. *)
Theorem no_profit_on_adverse_move
  (leverage openPrice closePrice quantity : value) (w w' : World)
  (r : ProfitResult) :
  ratesNonNegative (config w) = true ->
  isFinite (makerFeeRate (config w)) = true ->
  isFinite (takerFeeRate (config w)) = true ->
  calculateProfit leverage openPrice closePrice quantity w = (Return r, w') ->
  (totalFee r >=? Fin 0)%num = true
  /\ ((match direction (config w) with
       | LONG => (parseFloat closePrice <=? parseFloat openPrice)%num
       | SHORT => (parseFloat openPrice <=? parseFloat closePrice)%num
       end) = true ->
      (profit r <=? Fin 0)%num = true).
Proof.
  intros Hr Hfm Hft E.
  destruct (usable leverage && usable openPrice && usable closePrice
            && usable quantity) eqn:U.
  2:{ destruct (calculateProfit_rejects _ _ _ _ w U) as (m & C). congruence. }
  rewrite !andb_true_iff in U. destruct U as [[[Ul Uo] Uc] Uq].
  destruct (calculateProfit_accepts _ _ _ _ w Ul Uo Uc Uq)
    as (qo & qc & qq & Fo & Fc & Fq & Lo & Lc & Lq & A).
  rewrite A in E. cbv zeta in E. injection E as <- _.
  cbn [profit totalFee]. rewrite Fo, Fc.
  unfold ratesNonNegative in Hr. apply andb_true_iff in Hr.
  destruct Hr as [Hm Ht].
  destruct (nonNegative_rate _ Hm) as [Em|(m & Em & Pm)];
    [rewrite Em in Hfm; discriminate|].
  destruct (nonNegative_rate _ Ht) as [Et|(t & Et & Pt)];
    [rewrite Et in Hft; discriminate|].
  rewrite Em, Et. cbn [Num.mul Num.add Num.sub Num.ge Num.le].
  assert (Pqo : 0 <= qq * qo)
    by (apply Qmult_le_0_compat; now apply Qlt_le_weak).
  assert (Pqc : 0 <= qq * qc)
    by (apply Qmult_le_0_compat; now apply Qlt_le_weak).
  assert (P1 : 0 <= qq * qo * m) by (now apply Qmult_le_0_compat).
  assert (P2 : 0 <= qq * qc * t) by (now apply Qmult_le_0_compat).
  split; [apply Qle_bool_iff; lra|].
  destruct (direction (config w)); cbn [Num.mul Num.add Num.sub Num.le];
    intros H; apply Qle_bool_iff in H; apply Qle_bool_iff.
  - assert (qq * (qc - qo) <= 0).
    { setoid_replace (qq * (qc - qo)) with (- (qq * (qo - qc))) by ring.
      assert (0 <= qq * (qo - qc))
        by (apply Qmult_le_0_compat; [now apply Qlt_le_weak|lra]).
      lra. }
    lra.
  - assert (qq * (qo - qc) <= 0).
    { setoid_replace (qq * (qo - qc)) with (- (qq * (qc - qo))) by ring.
      assert (0 <= qq * (qc - qo))
        by (apply Qmult_le_0_compat; [now apply Qlt_le_weak|lra]).
      lra. }
    lra.
Qed.

Lemma no_profit_on_adverse_move_witness :
  exists r,
    calculateProfit (VStr "10") (VStr "100") (VStr "100") (VStr "2")
      initialWorld = (Return r, initialWorld)
    /\ (totalFee r >=? Fin 0)%num = true
    /\ (profit r <=? Fin 0)%num = true.
Proof.
  eexists. split; [vm_compute; reflexivity|].
  destruct (no_profit_on_adverse_move (VStr "10") (VStr "100") (VStr "100")
              (VStr "2") initialWorld initialWorld _ eq_refl eq_refl eq_refl
              eq_refl)
    as [H1 H2].
  split; [exact H1|exact (H2 eq_refl)].
Defined.

(** ** liquidationCalculator.js *)

(** With a custom initial margin that is absent or a number, the initial
    margin of an accepted call is a finite number above 0, and so every
    quantity of the formulas is finite. *)
Lemma calculateLiquidation_margins
  (leverage openPrice quantity addMargin customInitialMargin : value)
  (w : World) :
  liquidationInputsValid leverage openPrice quantity addMargin
    customInitialMargin = true ->
  (forall s, customInitialMargin <> VStr s) ->
  exists qo qq qa i,
    parseFloat openPrice = Fin qo /\ parseFloat quantity = Fin qq
    /\ parseFloat addMargin = Fin qa
    /\ 0 < qo /\ 0 < qq /\ 0 <= qa /\ 0 < i
    /\ (leverageRequired (defaultNull customInitialMargin) = true ->
        exists l, parseFloat leverage = Fin l /\ 0 < l /\ i = qq * qo / l)
    /\ (leverageRequired (defaultNull customInitialMargin) = false ->
        customInitialMargin = VNum (Fin i))
    /\ calculateLiquidation leverage openPrice quantity addMargin
         customInitialMargin w
       = (let tm := i + qa in
          let liq :=
            match direction (config w) with
            | LONG => qo - tm / qq
            | SHORT => qo + tm / qq
            end in
          if Qltb 0 liq
          then Return {| liquidationPrice := Fin liq;
                         initialMargin := Fin i;
                         totalMargin := Fin tm;
                         isWarning := outsideUsualRange leverage |}
          else Throw "计算结果无效，请检查输入参数",
          afterLeverageCheck leverage customInitialMargin w).
Proof.
  intros V Hs.
  pose proof (calculateLiquidation_accepts _ _ _ _ _ w V) as E.
  cbv zeta in E. rewrite E. clear E.
  unfold liquidationInputsValid in V. cbv zeta in V.
  rewrite !andb_true_iff in V.
  destruct V as ((((((((Hl & Ho) & Hq) & Ha) & Hc) & _) & _) & _) & _).
  destruct (isPositive_parts _ Ho) as (_ & _ & (qo & Fo & _ & Po)).
  destruct (isPositive_parts _ Hq) as (_ & _ & (qq & Fq & _ & Pq)).
  destruct (isNonNegative_parts _ Ha) as (_ & (qa & Fa & Pa)).
  rewrite Fo, Fq, Fa.
  assert (Hfin : forall i : Q,
    (if isFinite
          match direction (config w) with
          | LONG => (Fin qo - (Fin i + Fin qa) / Fin qq)%num
          | SHORT => (Fin qo + (Fin i + Fin qa) / Fin qq)%num
          end
        && (match direction (config w) with
            | LONG => (Fin qo - (Fin i + Fin qa) / Fin qq)%num
            | SHORT => (Fin qo + (Fin i + Fin qa) / Fin qq)%num
            end >? Fin 0)%num
     then Return {| liquidationPrice :=
                      match direction (config w) with
                      | LONG => (Fin qo - (Fin i + Fin qa) / Fin qq)%num
                      | SHORT => (Fin qo + (Fin i + Fin qa) / Fin qq)%num
                      end;
                    initialMargin := Fin i;
                    totalMargin := (Fin i + Fin qa)%num;
                    isWarning := outsideUsualRange leverage |}
     else Throw "计算结果无效，请检查输入参数")
    = (if Qltb 0 match direction (config w) with
                 | LONG => qo - (i + qa) / qq
                 | SHORT => qo + (i + qa) / qq
                 end
       then Return {| liquidationPrice :=
                        Fin match direction (config w) with
                            | LONG => qo - (i + qa) / qq
                            | SHORT => qo + (i + qa) / qq
                            end;
                      initialMargin := Fin i;
                      totalMargin := Fin (i + qa);
                      isWarning := outsideUsualRange leverage |}
       else Throw "计算结果无效，请检查输入参数")).
  { intros i. destruct (direction (config w)); simpl;
      rewrite (Qeq_bool_pos Pq); reflexivity. }
  assert (Hlev : leverageRequired (defaultNull customInitialMargin) = true ->
                 exists l, parseFloat leverage = Fin l /\ 0 < l
                           /\ (Fin qq * Fin qo / parseFloat leverage)%num
                              = Fin (qq * qo / l)).
  { intros R. rewrite R in Hl.
    destruct (isPositive_parts _ Hl) as (_ & _ & (l & Fl & _ & Pl)).
    exists l. rewrite Fl. repeat split; try assumption.
    simpl. now rewrite (Qeq_bool_pos Pl). }
  assert (Hpos : forall l, 0 < l -> 0 < qq * qo / l).
  { intros l Pl. apply Qlt_shift_div_l; [assumption|].
    rewrite Qmult_0_l. now apply Qmult_lt_0_compat. }
  destruct customInitialMargin as [| |x|s]; [| | |now elim (Hs s)].
  - destruct (Hlev eq_refl) as (l & Fl & Pl & El).
    exists qo, qq, qa, (qq * qo / l). repeat (split; [first [assumption | reflexivity]|]).
    split; [now apply Hpos|]. split; [intros _; exists l; auto|].
    split; [discriminate|]. cbn [defaultNull isNull negb andb].
    rewrite El, Hfin. reflexivity.
  - destruct (Hlev eq_refl) as (l & Fl & Pl & El).
    exists qo, qq, qa, (qq * qo / l). repeat (split; [first [assumption | reflexivity]|]).
    split; [now apply Hpos|]. split; [intros _; exists l; auto|].
    split; [discriminate|]. cbn [defaultNull isNull negb andb].
    rewrite El, Hfin. reflexivity.
  - cbn [defaultNull isNull negb andb orb parseFloat] in *.
    destruct (isNonNegative_parts _ Hc) as (_ & (xq & Fx & Px)).
    cbn [parseFloat] in Fx. subst x.
    unfold leverageRequired in *. cbn [isNull orb toNumber] in *.
    destruct (Fin xq <=? Fin 0)%num eqn:Le.
    + destruct (Hlev eq_refl) as (l & Fl & Pl & El).
      assert (G : (Fin xq >? Fin 0)%num = false).
      { simpl in *. unfold Qltb. now rewrite Le. }
      exists qo, qq, qa, (qq * qo / l). repeat (split; [first [assumption | reflexivity]|]).
      split; [now apply Hpos|]. split; [intros _; exists l; auto|].
      split; [discriminate|]. rewrite G, El, Hfin. reflexivity.
    + assert (G : (Fin xq >? Fin 0)%num = true).
      { simpl in *. unfold Qltb. now rewrite Le. }
      exists qo, qq, qa, xq. repeat (split; [first [assumption | reflexivity]|]).
      split; [now apply Qltb_lt|]. split; [discriminate|].
      split; [reflexivity|]. rewrite G, Hfin. reflexivity.
Qed.

(** With a custom initial margin that is absent or a number, a result of
    [calculateLiquidation] has a finite liquidation price above 0, an
    initial margin that is not negative, a total margin that is not below
    the initial margin, and a liquidation price that is not on the wrong
    side of the open price: not above it for a long position, not below it
    for a short one.  (With a margin given as text the last three can
    fail: a hexadecimal numeral is above 0 as a number, so that the
    leverage is not validated, and reads as 0 with [parseFloat], so that
    the leverage is used.) *)
Theorem liquidation_result_bounds
  (leverage openPrice quantity addMargin customInitialMargin : value)
  (w w' : World) (r : LiquidationResult) :
  (forall s, customInitialMargin <> VStr s) ->
  calculateLiquidation leverage openPrice quantity addMargin
    customInitialMargin w = (Return r, w') ->
  isFinite (liquidationPrice r) = true
  /\ (liquidationPrice r >? Fin 0)%num = true
  /\ (initialMargin r >=? Fin 0)%num = true
  /\ (totalMargin r >=? initialMargin r)%num = true
  /\ match direction (config w) with
     | LONG => (liquidationPrice r <=? parseFloat openPrice)%num = true
     | SHORT => (liquidationPrice r >=? parseFloat openPrice)%num = true
     end.
Proof.
  intros Hs E.
  destruct (liquidationInputsValid leverage openPrice quantity addMargin
              customInitialMargin) eqn:V.
  2:{ destruct (calculateLiquidation_rejects _ _ _ _ _ w V) as (m & w2 & C).
      congruence. }
  destruct (calculateLiquidation_margins _ _ _ _ _ w V Hs)
    as (qo & qq & qa & i & Fo & Fq & Fa & Po & Pq & Pa & Pi & _ & _ & A).
  rewrite A in E. cbv zeta in E.
  match type of E with
  | (if ?b then _ else _, _) = _ => destruct b eqn:B; [|discriminate]
  end.
  injection E as <- _. cbn [initialMargin totalMargin liquidationPrice].
  rewrite Fo.
  assert (Hd : 0 <= (i + qa) / qq)
    by (apply Qle_shift_div_l; [assumption|lra]).
  split; [reflexivity|]. split; [exact B|].
  split; [apply Qle_bool_iff; lra|]. split; [apply Qle_bool_iff; lra|].
  destruct (direction (config w)); apply Qle_bool_iff; lra.
Qed.

Lemma liquidation_result_bounds_witness :
  match calculateLiquidation (VStr "10") (VStr "100") (VStr "1") (VNum (Fin 0))
          (VNum (Fin 25)) initialWorld with
  | (Return r, _) =>
      isFinite (liquidationPrice r) = true
      /\ (liquidationPrice r >? Fin 0)%num = true
      /\ (initialMargin r >=? Fin 0)%num = true
      /\ (totalMargin r >=? initialMargin r)%num = true
      /\ (liquidationPrice r <=? parseFloat (VStr "100"))%num = true
  | (Throw _, _) => False
  end.
Proof.
  destruct (calculateLiquidation (VStr "10") (VStr "100") (VStr "1")
              (VNum (Fin 0)) (VNum (Fin 25)) initialWorld)
    as [[r|m] w'] eqn:E.
  - exact (liquidation_result_bounds (VStr "10") (VStr "100") (VStr "1")
             (VNum (Fin 0)) (VNum (Fin 25)) initialWorld w' r
             (fun s (H : VNum (Fin 25) = VStr s) =>
                eq_ind (VNum (Fin 25))
                  (fun v => match v with VNum _ => True | _ => False end)
                  I (VStr s) H)
             E).
  - vm_compute in E. discriminate E.
Defined.



(** ** The button of the liquidation calculator *)

(** Whatever the five fields of the form hold, the handler passes the
    initial margin on as a number above 0 or as [null], never as text, and
    a result computed from the fields has an initial margin that is not
    negative, a total margin that is not below it, and a liquidation price
    that is above 0 and not on the wrong side of the open price: not above
    it for a long position, not below it for a short one. *)
Theorem liquidation_from_fields_is_sound
  (liqLeverage liqOpenPrice liqQuantity liqInitialMargin liqAddMargin : string)
  (w w' : World) (r : LiquidationResult) :
  calculateLiquidationFromFields liqLeverage liqOpenPrice liqQuantity
    liqInitialMargin liqAddMargin w = (Return r, w') ->
  (liquidationPrice r >? Fin 0)%num = true
  /\ (initialMargin r >=? Fin 0)%num = true
  /\ (totalMargin r >=? initialMargin r)%num = true
  /\ match direction (config w) with
     | LONG =>
         (liquidationPrice r <=? parseFloat (VStr liqOpenPrice))%num = true
     | SHORT =>
         (liquidationPrice r >=? parseFloat (VStr liqOpenPrice))%num = true
     end.
Proof.
  unfold calculateLiquidationFromFields. cbv zeta.
  set (a := if truthyString liqAddMargin then VStr liqAddMargin
            else VNum (Fin 0)).
  set (c := if truthyString liqInitialMargin
               && (parseFloat (VStr liqInitialMargin) >? Fin 0)%num
            then VNum (parseFloat (VStr liqInitialMargin)) else VNull).
  intros E.
  assert (Hc : forall s, c <> VStr s).
  { intros s. subst c.
    destruct (truthyString liqInitialMargin
              && (parseFloat (VStr liqInitialMargin) >? Fin 0)%num);
      discriminate. }
  destruct (liquidationInputsValid (VStr liqLeverage) (VStr liqOpenPrice)
              (VStr liqQuantity) a c) eqn:V.
  2:{ destruct (calculateLiquidation_rejects _ _ _ _ _ w V) as (m & w2 & C).
      congruence. }
  destruct (calculateLiquidation_margins _ _ _ _ _ w V Hc)
    as (qo & qq & qa & i & Fo & Fq & Fa & Po & Pq & Pa & Pi & _ & _ & A).
  rewrite A in E. cbv zeta in E.
  match type of E with
  | (if ?b then _ else _, _) = _ => destruct b eqn:B; [|discriminate]
  end.
  injection E as <- _. cbn [initialMargin totalMargin liquidationPrice].
  rewrite Fo.
  assert (Hd : 0 <= (i + qa) / qq)
    by (apply Qle_shift_div_l; [assumption|lra]).
  split; [exact B|].
  split; [apply Qle_bool_iff; lra|]. split; [apply Qle_bool_iff; lra|].
  destruct (direction (config w)); apply Qle_bool_iff; lra.
Qed.

Lemma liquidation_from_fields_is_sound_witness :
  match calculateLiquidationFromFields "10" "100" "1" "" "" initialWorld with
  | (Return r, _) =>
      (liquidationPrice r >? Fin 0)%num = true
      /\ (initialMargin r >=? Fin 0)%num = true
      /\ (totalMargin r >=? initialMargin r)%num = true
      /\ (liquidationPrice r <=? parseFloat (VStr "100"))%num = true
  | (Throw _, _) => False
  end.
Proof.
  destruct (calculateLiquidationFromFields "10" "100" "1" "" "" initialWorld)
    as [[r|m] w'] eqn:E.
  - exact (liquidation_from_fields_is_sound "10" "100" "1" "" ""
             initialWorld w' r E).
  - vm_compute in E. discriminate E.
Defined.

(** ** positionCalculator.js *)

Lemma calculatePosition_rejects
  (plannedLoss stopLossAmount stopLossPercent : value) (w : World) :
  usable plannedLoss = false ->
  exists message,
    calculatePosition plannedLoss stopLossAmount stopLossPercent w
    = (Throw message, w).
Proof.
  unfold usable, calculatePosition. cbn [validateRequiredFields]. intros H.
  destruct (isEmpty plannedLoss); [eexists; reflexivity|].
  destruct (isValidNumber plannedLoss); [|eexists; reflexivity].
  cbn [negb isValid andb] in *.
  destruct (isPositive plannedLoss); [|eexists; reflexivity].
  cbn [negb andb] in *.
  destruct (isExtremeValue plannedLoss); [eexists; reflexivity|discriminate].
Qed.

Lemma calculatePosition_outcome
  (plannedLoss stopLossAmount stopLossPercent : value) (w : World) :
  usable plannedLoss = true ->
  calculatePosition plannedLoss stopLossAmount stopLossPercent w
  = (if isValidNumber stopLossAmount then
       if negb (parseFloat stopLossAmount >? Fin 0)%num
       then Throw "止损幅度必须大于0"
       else if isExtremeValue stopLossAmount then Throw "止损幅度超出合理范围"
       else Return (ByAmount (parseFloat plannedLoss / parseFloat stopLossAmount)
                      (parseFloat stopLossAmount))
     else if isValidNumber stopLossPercent then
       if negb (parseFloat stopLossPercent >? Fin 0)%num
       then Throw "止损百分比必须大于0"
       else if (parseFloat stopLossPercent >? Fin 100)%num
       then Throw "止损百分比不能超过100%"
       else Return (ByPercent
                      (parseFloat plannedLoss
                       / (parseFloat stopLossPercent / Fin 100))
                      (parseFloat stopLossPercent))
     else Throw "请输入止损幅度或止损百分比", w).
Proof.
  intros Hp.
  destruct (usable_parts _ Hp) as (Vp & Ep & Pp & Xp & _).
  unfold calculatePosition. cbn [validateRequiredFields].
  rewrite Ep, Vp, Pp, Xp. cbn [negb isValid].
  rewrite !isValidNumber_defaultNull.
  destruct (isValidNumber stopLossAmount) eqn:Va.
  - destruct (isPositive_parsed _ Va) as (E1 & _ & E2).
    assert (Hn : isNull (defaultNull stopLossAmount) = false)
      by (apply isValidNumber_not_null; now rewrite isValidNumber_defaultNull).
    assert (Hd : parseFloat (defaultNull stopLossAmount)
                 = parseFloat stopLossAmount)
      by (destruct stopLossAmount; reflexivity).
    rewrite Hn, Hd. cbn [negb andb]. rewrite E1, E2.
    destruct (parseFloat stopLossAmount >? Fin 0)%num; [|reflexivity].
    destruct (isExtremeValue stopLossAmount); reflexivity.
  - rewrite andb_false_r.
    destruct (isValidNumber stopLossPercent) eqn:Vq.
    + destruct (isPositive_parsed _ Vq) as (E1 & _ & _).
      assert (Hn : isNull (defaultNull stopLossPercent) = false)
        by (apply isValidNumber_not_null;
            now rewrite isValidNumber_defaultNull).
      assert (Hd : parseFloat (defaultNull stopLossPercent)
                   = parseFloat stopLossPercent)
        by (destruct stopLossPercent; reflexivity).
      rewrite Hn, Hd. cbn [negb andb]. rewrite E1.
      destruct (parseFloat stopLossPercent >? Fin 0)%num; [|reflexivity].
      destruct (parseFloat stopLossPercent >? Fin 100)%num; reflexivity.
    + rewrite andb_false_r. reflexivity.
Qed.

(** The result of [calculatePosition] carries the parsed stop, which is
    above 0, and in percent mode at most 100; the quantity of the amount
    mode is not negative, and the position value of the percent mode is
    not below the planned loss, since the stop is at most the whole
    position. *)
Theorem sized_position_covers_planned_loss
  (plannedLoss stopLossAmount stopLossPercent : value) (w w' : World)
  (r : PositionResult) :
  calculatePosition plannedLoss stopLossAmount stopLossPercent w
  = (Return r, w') ->
  match r with
  | ByAmount quantity amount =>
      amount = parseFloat stopLossAmount
      /\ (amount >? Fin 0)%num = true
      /\ (quantity >=? Fin 0)%num = true
  | ByPercent positionValue percent =>
      percent = parseFloat stopLossPercent
      /\ (percent >? Fin 0)%num = true
      /\ (percent <=? Fin 100)%num = true
      /\ (positionValue >=? parseFloat plannedLoss)%num = true
  end.
Proof.
  intros E.
  destruct (usable plannedLoss) eqn:U.
  2:{ destruct (calculatePosition_rejects _ stopLossAmount stopLossPercent w U)
        as (m & C). congruence. }
  rewrite (calculatePosition_outcome _ _ _ w U) in E.
  destruct (usable_parts _ U) as (_ & _ & _ & _ & (qr & Fr & _ & Pr)).
  rewrite Fr in *.
  destruct (isValidNumber stopLossAmount) eqn:Va.
  - destruct (isValidNumber_finite _ Va) as [a Fa]. rewrite Fa in *.
    destruct (Fin a >? Fin 0)%num eqn:Ga; [|discriminate].
    destruct (isExtremeValue stopLossAmount); [discriminate|].
    injection E as <- _. split; [reflexivity|]. split; [exact Ga|].
    apply Qltb_lt in Ga.
    simpl. rewrite (Qeq_bool_pos Ga). simpl. apply Qle_bool_iff.
    apply Qle_shift_div_l; [assumption|]. lra.
  - destruct (isValidNumber stopLossPercent) eqn:Vp; [|discriminate].
    destruct (isValidNumber_finite _ Vp) as [p Fp]. rewrite Fp in *.
    destruct (Fin p >? Fin 0)%num eqn:Gp; [|discriminate].
    destruct (Fin p >? Fin 100)%num eqn:Hp; [discriminate|].
    injection E as <- _. split; [reflexivity|]. split; [exact Gp|].
    apply Qltb_lt in Gp. apply Qltb_ge in Hp.
    split; [now apply Qle_bool_iff|].
    assert (Hf : 0 < p / 100) by (apply Qlt_shift_div_l; lra).
    simpl. change (Qeq_bool 100 0) with false. cbn iota.
    rewrite (Qeq_bool_pos Hf). simpl.
    apply Qle_bool_iff. apply Qle_shift_div_l; [assumption|].
    assert (p / 100 <= 1) by (apply Qle_shift_div_r; lra). nra.
Qed.

Lemma sized_position_covers_planned_loss_witness :
  match calculatePosition (VStr "100") VNull (VStr "10") initialWorld with
  | (Return (ByPercent positionValue percent), _) =>
      percent = parseFloat (VStr "10")
      /\ (percent >? Fin 0)%num = true
      /\ (percent <=? Fin 100)%num = true
      /\ (positionValue >=? parseFloat (VStr "100"))%num = true
  | _ => False
  end.
Proof.
  destruct (calculatePosition (VStr "100") VNull (VStr "10") initialWorld)
    as [[r|m] w'] eqn:E; [|vm_compute in E; discriminate E].
  pose proof (sized_position_covers_planned_loss (VStr "100") VNull
                (VStr "10") initialWorld w' r E) as H.
  destruct r as [q a|pv p]; [vm_compute in E; discriminate E|exact H].
Defined.

(** ** averagePriceCalculator.js *)

Lemma filter_other_ids (i : Z) (ps : list FillRecord) :
  ~ In i (map Fill.id ps) ->
  filter (fun p => negb (Z.eqb (Fill.id p) i)) ps = ps.
Proof.
  induction ps as [|p ps IH]; intros H; [reflexivity|].
  simpl in *. destruct (Z.eqb (Fill.id p) i) eqn:E.
  - apply Z.eqb_eq in E. elim H. now left.
  - simpl. rewrite IH; [reflexivity|]. intros C. apply H. now right.
Qed.

Lemma setPositions_same (w : World) : setPositions (positions w) w = w.
Proof. now destruct w. Qed.

(** When the identifiers of the records are pairwise distinct,
    [removePosition] with the identifier of a record removes that record
    and nothing else, keeping the order of the others; with an identifier
    that no record has it changes nothing. *)
Theorem removePosition_distinct_ids (w : World) :
  NoDup (map Fill.id (positions w)) ->
  (forall before p rest,
     positions w = (before ++ p :: rest)%list ->
     removePosition (Fill.id p) w
     = (Return tt, setPositions (before ++ rest) w))
  /\ (forall i, ~ In i (map Fill.id (positions w)) ->
                removePosition i w = (Return tt, w)).
Proof.
  intros Hn. split.
  - intros before p rest E. unfold removePosition, modify.
    rewrite E in *. rewrite map_app in Hn. cbn [map] in Hn.
    pose proof (NoDup_remove_2 _ _ _ Hn) as Hp.
    rewrite in_app_iff in Hp.
    rewrite filter_app. cbn [filter]. rewrite Z.eqb_refl. cbn [negb].
    rewrite !filter_other_ids; [reflexivity| |]; intros C; apply Hp; auto.
  - intros i Hi. unfold removePosition, modify.
    now rewrite (filter_other_ids _ _ Hi), setPositions_same.
Qed.

Lemma removePosition_distinct_ids_witness :
  let now := fun n : nat => (1700000000000 + 1000 * Z.of_nat n)%Z in
  let w3 := snd (addPosition now (VStr "3") (VStr "300")
              (snd (addPosition now (VStr "2") (VStr "200")
                 (snd (addPosition now (VStr "1") (VStr "100")
                         initialWorld))))) in
  map Fill.quantity (positions (snd (removePosition 1700000001000 w3)))
  = [parseFloat (VStr "1"); parseFloat (VStr "3")].
Proof.
  intros now w3.
  assert (Hn : NoDup (map Fill.id (positions w3))).
  { vm_compute. repeat constructor; simpl; intuition discriminate. }
  destruct (removePosition_distinct_ids w3 Hn) as [H _].
  pose proof (H [fillRecord 1700000000000 (parseFloat (VStr "1"))
                   (parseFloat (VStr "100")) (Fin (2 # 10000))]
                (fillRecord 1700000001000 (parseFloat (VStr "2"))
                   (parseFloat (VStr "200")) (Fin (2 # 10000)))
                [fillRecord 1700000002000 (parseFloat (VStr "3"))
                   (parseFloat (VStr "300")) (Fin (2 # 10000))] eq_refl) as E.
  cbn [Fill.id fillRecord] in E. rewrite E. reflexivity.
Defined.

Section AddRemove.

Variable now : nat -> Z.

(** Adding a record and removing it again by its identifier gives back
    the records there were, provided no earlier record has the identifier
    the clock gave the new one; in general the removal also takes every
    earlier record with that identifier. *)
Theorem add_then_remove_position (quantity price : value) (w : World) :
  usable quantity = true -> usable price = true ->
  exists r w1,
    addPosition now quantity price w = (Return r, w1)
    /\ Fill.id r = now (dateCalls w)
    /\ positions (snd (removePosition (Fill.id r) w1))
       = filter (fun p => negb (Z.eqb (Fill.id p) (Fill.id r))) (positions w)
    /\ (~ In (Fill.id r) (map Fill.id (positions w)) ->
        positions (snd (removePosition (Fill.id r) w1)) = positions w).
Proof.
  intros Hq Hp. rewrite (addPosition_accepts now _ _ w Hq Hp). cbv zeta.
  eexists. eexists. split; [reflexivity|].
  cbn [Fill.id fillRecord]. split; [reflexivity|].
  unfold removePosition, modify. cbn [snd setPositions positions].
  rewrite filter_app. cbn [filter Fill.id]. rewrite Z.eqb_refl. cbn [negb].
  rewrite app_nil_r. split; [reflexivity|].
  intros H. now apply filter_other_ids.
Qed.

End AddRemove.

Lemma add_then_remove_position_witness :
  let now := fun n : nat => (1700000000000 + 1000 * Z.of_nat n)%Z in
  let w1 := snd (addPosition now (VStr "1") (VStr "100") initialWorld) in
  exists r w2,
    addPosition now (VStr "2") (VStr "200") w1 = (Return r, w2)
    /\ positions (snd (removePosition (Fill.id r) w2)) = positions w1.
Proof.
  intros now w1.
  destruct (add_then_remove_position now (VStr "2") (VStr "200") w1
              eq_refl eq_refl) as (r & w2 & E & Hi & _ & H).
  exists r, w2. split; [exact E|]. apply H. rewrite Hi.
  vm_compute. intros [C|[]]. discriminate C.
Defined.

(** Only a change of the maker fee rate makes the tracker compute its
    records again: a call of [setDirection], of [setTakerFeeRate] or of
    [resetConfig] leaves every record as it was, and so the records keep
    the fees of the old rate after [resetConfig] put the maker fee rate
    back to its default. *)
Theorem other_changes_keep_records
  (now : nat -> Z) (listenerBody : Listener -> string -> ConfigValue -> W unit)
  (l : Listener) (call : SetterCall) (s : State) :
  listeners (config (world s)) = [l] ->
  (forall key v, listenerBody l key v = onConfigChange now key v) ->
  (forall rate, call <> SetMakerFeeRate rate) ->
  positions (world (snd (runSetter listenerBody call s)))
  = positions (world s)
  /\ (call = ResetConfig ->
      makerFeeRate (config (world (snd (runSetter listenerBody call s))))
      = Fin (2 # 10000)).
Proof.
  intros Hl Hb Hc.
  destruct (succeeds call) eqn:Hs.
  - assert (E : world (snd (runSetter listenerBody call s))
                = setConfig (stored call (config (world s))) (world s)).
    { rewrite (runSetter_accepted listenerBody call s Hs).
      unfold config.notifyListeners, bind at 1, gets at 1.
      cbn [world config setConfig].
      assert (El : listeners (stored call (config (world s))) = [l])
        by (destruct call; exact Hl).
      rewrite El. cbn [List.length config.notifyFrom].
      unfold bind at 1, gets at 1. cbn [world config setConfig].
      rewrite El. cbn [nth_error].
      unfold bind, tryCatch, config.invoke, lift. cbn [world calls].
      rewrite Hb.
      destruct call as [d|rate|rate|]; [| now elim (Hc rate) | |];
        reflexivity. }
    rewrite E. cbn [positions setConfig config]. split; [reflexivity|].
    intros ->. reflexivity.
  - rewrite (runSetter_rejected listenerBody call s Hs).
    cbn [snd world logEntry positions]. split; [reflexivity|].
    intros ->. discriminate.
Qed.

Lemma other_changes_keep_records_witness :
  let now := fun n : nat => (1700000000000 + 1000 * Z.of_nat n)%Z in
  let w0 := setConfig (config.withMakerFeeRate (Fin (1 # 100))
                         (config.withListeners [0%nat] config.defaultConfig))
              initialWorld in
  let w1 := snd (addPosition now (VStr "1") (VStr "100") w0) in
  let s' := snd (config.resetConfig (fun _ => onConfigChange now)
                   {| world := w1; calls := [] |}) in
  positions (world s') = positions w1
  /\ makerFeeRate (config (world s')) = Fin (2 # 10000)
  /\ Forall (derivedAt (Fin (1 # 100))) (positions (world s')).
Proof.
  intros now w0 w1 s'.
  destruct (other_changes_keep_records now (fun _ => onConfigChange now)
              0%nat ResetConfig {| world := w1; calls := [] |} eq_refl
              (fun key v => eq_refl)
              (fun rate (H : ResetConfig = SetMakerFeeRate rate) =>
                 eq_ind ResetConfig
                   (fun c => match c with ResetConfig => True | _ => False end)
                   I (SetMakerFeeRate rate) H))
    as [H1 H2].
  split; [exact H1|]. split; [exact (H2 eq_refl)|].
  subst s'. cbn [runSetter] in H1. rewrite H1.
  repeat constructor.
Defined.

(** ** themeManager.js *)

Import themeManager.

Lemma classAdd_contains (token : string) (classes : list string) :
  classContains token (classAdd token classes) = true.
Proof.
  unfold classAdd, classContains.
  destruct (existsb (String.eqb token) classes) eqn:E; [exact E|].
  rewrite existsb_app, E. simpl. now rewrite String.eqb_refl.
Qed.

Lemma classRemove_contains (token : string) (classes : list string) :
  classContains token (classRemove token classes) = false.
Proof.
  unfold classRemove, classContains.
  induction classes as [|c classes IH]; [reflexivity|].
  simpl. destruct (String.eqb c token) eqn:E; simpl; [exact IH|].
  rewrite IH, String.eqb_sym, E. reflexivity.
Qed.

(** [toggleTheme] turns the light theme, which is also the theme when
    nothing or the empty string is stored, into the dark one and every
    other theme into the light one; so toggling twice gives back a theme
    that was light or dark, and after one toggle the theme is light or
    dark whatever was stored. *)
Theorem toggleTheme_switches (p : Page) :
  getCurrentTheme (toggleTheme p)
  = (if String.eqb (getCurrentTheme p) "light" then "dark" else "light")
  /\ (getCurrentTheme p = "light" \/ getCurrentTheme p = "dark" ->
      getCurrentTheme (toggleTheme (toggleTheme p)) = getCurrentTheme p)
  /\ (getCurrentTheme (toggleTheme p) = "light"
      \/ getCurrentTheme (toggleTheme p) = "dark").
Proof.
  assert (H : forall q, getCurrentTheme (toggleTheme q)
                        = if String.eqb (getCurrentTheme q) "light"
                          then "dark" else "light").
  { intros q. unfold toggleTheme, setTheme, applyTheme,
      updateDirectionButtonsForTheme, getCurrentTheme at 1.
    destruct (String.eqb (getCurrentTheme q) "light"); reflexivity. }
  split; [apply H|]. split.
  - intros [E|E]; rewrite !H, E; reflexivity.
  - rewrite H. destruct (String.eqb (getCurrentTheme p) "light"); auto.
Qed.

(** After [setTheme], and so after [toggleTheme], the page shows the
    stored theme: the body has the class of the dark mode exactly when
    [isDarkMode] holds, the sun icon is hidden and the moon icon shown in
    the dark mode and the other way round otherwise, when they exist, and
    one change event was dispatched. *)
Theorem setTheme_shows_stored_theme (theme : string) (p : Page) :
  let p' := setTheme theme p in
  classContains DARK_MODE_CLASS (bodyClasses p') = isDarkMode p'
  /\ (forall classes, sunIcon p' = Some classes ->
                      classContains "hidden" classes = isDarkMode p')
  /\ (forall classes, moonIcon p' = Some classes ->
                      classContains "hidden" classes = negb (isDarkMode p'))
  /\ dispatched p' = (dispatched p ++ ["themeChanged"])%list
  /\ classContains DARK_MODE_CLASS (bodyClasses (toggleTheme p))
     = isDarkMode (toggleTheme p).
Proof.
  assert (Hbody : forall t q,
            classContains DARK_MODE_CLASS (bodyClasses (setTheme t q))
            = isDarkMode (setTheme t q)).
  { intros t q. unfold isDarkMode, getCurrentTheme, setTheme, applyTheme,
      updateDirectionButtonsForTheme.
    destruct (String.eqb t "dark") eqn:E; cbn [storedTheme bodyClasses].
    - apply String.eqb_eq in E. subst t.
      now rewrite classAdd_contains.
    - assert (D : String.eqb (if truthyString t then t else "light") "dark"
                  = false)
        by (destruct (truthyString t); [exact E|reflexivity]).
      now rewrite D, classRemove_contains. }
  assert (Htoggle : classContains DARK_MODE_CLASS (bodyClasses (toggleTheme p))
                    = isDarkMode (toggleTheme p)).
  { exact (Hbody (if String.eqb (getCurrentTheme p) "light" then "dark"
                  else "light") p). }
  revert Htoggle. generalize (toggleTheme p). intros toggled Htoggle.
  cbv zeta. unfold isDarkMode, getCurrentTheme, setTheme, applyTheme,
    updateDirectionButtonsForTheme.
  destruct (String.eqb theme "dark") eqn:E;
    cbn [storedTheme bodyClasses sunIcon moonIcon dispatched].
  - apply String.eqb_eq in E. subst theme. cbn [truthyString String.eqb
      Ascii.eqb Bool.eqb negb].
    rewrite classAdd_contains. split; [reflexivity|].
    split; [|split; [|split; [reflexivity|exact Htoggle]]]; intros classes H;
      [destruct (sunIcon p)|destruct (moonIcon p)]; try discriminate;
      injection H as <-; (apply classAdd_contains || apply classRemove_contains).
  - assert (D : String.eqb (if truthyString theme then theme else "light")
                  "dark" = false)
      by (destruct (truthyString theme); [exact E|reflexivity]).
    rewrite D, classRemove_contains. split; [reflexivity|].
    split; [|split; [|split; [reflexivity|exact Htoggle]]]; intros classes H;
      [destruct (sunIcon p)|destruct (moonIcon p)]; try discriminate;
      injection H as <-; (apply classAdd_contains || apply classRemove_contains).
Qed.
